(** * Report matrix and compliance analysis engine

    A shallow embedding of the report controller (date expansion, matrix
    builder, compliance checks, reading cache, request handlers) and of
    [addAnalysisSheetsToWorkbook] (compliance checks, category routing,
    column-address parsing).

    Conventions.
    - A JavaScript [Date] is its time value: milliseconds since the epoch,
      an integer ([Z]).  Invalid dates are not modelled.
    - A JavaScript [number] that holds a measurement (energy, nomination,
      variance) is an IEEE 754 binary64 value: Rocq's primitive [float].
    - A JavaScript [number] used as a counter or a column index is an
      integer ([Z] or [nat]); it is converted with [numOfZ] where the code
      multiplies it with a measurement.
    - A [Map<string, V>] is a [gmap string V]. *)

From Stdlib Require Import ZArith List String Ascii Bool Lia Floats Sorted.
From Equations Require Import Equations.
From stdpp Require Import gmap strings list pretty.
Import ListNotations.

#[local] Open Scope string_scope.
#[local] Open Scope list_scope.
#[local] Open Scope Z_scope.

(** ** Dates *)

Module Dates.

Definition MS_PER_DAY : Z := 86400000.

(** [d.setUTCHours(0, 0, 0, 0)] *)
Definition startOfUTCDay (t : Z) : Z := t - t mod MS_PER_DAY.

(** [d.setUTCHours(23, 59, 59, 999)] *)
Definition endOfUTCDay (t : Z) : Z := startOfUTCDay t + (MS_PER_DAY - 1).

(** [d.setUTCDate(d.getUTCDate() + k)] *)
Definition addUTCDays (t k : Z) : Z := t + k * MS_PER_DAY.

(** The UTC calendar day a time value falls on, counted from the epoch. *)
Definition dayNumber (t : Z) : Z := t / MS_PER_DAY.

(** The number of iterations the loop of [getDatesInRange] still has to
    make when its cursor is at [cur]. *)
Definition daysLeft (cur endDate : Z) : nat :=
  Z.to_nat ((endDate - cur) / MS_PER_DAY + 1).

(** The [while (currentDate <= endDate)] loop of [getDatesInRange]:
    push a copy of the cursor, then move the cursor one day on. *)
Equations? datesLoop (currentDate endDate : Z) : list Z
  by wf (daysLeft currentDate endDate) lt :=
  datesLoop currentDate endDate with Z_le_gt_dec currentDate endDate => {
    | left _ := currentDate :: datesLoop (addUTCDays currentDate 1) endDate;
    | right _ := [] }.
Proof.
  unfold daysLeft, addUTCDays.
  replace (endDate - (currentDate + 1 * MS_PER_DAY))
    with ((endDate - currentDate) + (-1) * MS_PER_DAY) by lia.
  rewrite Z.div_add by (unfold MS_PER_DAY; lia).
  assert (0 <= (endDate - currentDate) / MS_PER_DAY)
    by (apply Z.div_pos; [lia | reflexivity]).
  lia.
Qed.

Definition getDatesInRange (startDate endDate : Z) : list Z :=
  datesLoop (startOfUTCDay startDate) endDate.

(** [calculateDateRange(specificDate)], on the parsed date. *)
Definition calculateDateRange (specificDate : Z) : Z * Z :=
  (startOfUTCDay specificDate, endOfUTCDay specificDate).

(** What a call of the expander can come to.  The source has no [throw]
    on any path of [getDatesInRange], so the call always returns. *)
Inductive outcome :=
| Returned (dates : list Z)
| Raised (condition : string).

Definition expandRange (startDate endDate : Z) : outcome :=
  Returned (getDatesInRange startDate endDate).

End Dates.

(** ** Column addresses *)

Module Columns.

(** [String.fromCharCode(n)] and [s.charCodeAt(i)], on one-byte codes. *)
Definition fromCharCode (n : Z) : ascii := ascii_of_N (Z.to_N n).
Definition charCode (c : ascii) : Z := Z.of_N (N_of_ascii c).

(** The [while (current > 0)] loop of [getColumnLetter]. *)
Equations? letterLoop (current : Z) (letter : string) : string
  by wf (Z.to_nat current) lt :=
  letterLoop current letter with Z_gt_le_dec current 0 => {
    | left _ :=
        let temp := (current - 1) mod 26 in
        letterLoop ((current - temp - 1) / 26)
                   (String (fromCharCode (temp + 65)) letter);
    | right _ := letter }.
Proof.
  pose proof (Z.mod_pos_bound (current - 1) 26 eq_refl) as Hm.
  pose proof (Z.mod_le (current - 1) 26) as Hle.
  assert ((current - (current - 1) mod 26 - 1) / 26 < current)
    by (apply Z.div_lt_upper_bound; lia).
  assert (0 <= (current - (current - 1) mod 26 - 1) / 26)
    by (apply Z.div_pos; lia).
  subst temp; lia.
Qed.

Definition getColumnLetter (colIndex : Z) : string := letterLoop colIndex "".

(** The [for] loop of [colToNum], with [num] as the accumulator. *)
Fixpoint colToNumLoop (col : string) (num : Z) : Z :=
  match col with
  | EmptyString => num
  | String c rest => colToNumLoop rest (num * 26 + (charCode c - 64))
  end.

Definition colToNum (col : string) : Z := colToNumLoop col 0.

End Columns.

(** ** Data model *)

Module Model.

(** A counter ([i + 1], [dates.length], [dayIndex]) used as a measurement. *)
Definition numOfZ (z : Z) : float := PrimFloat.of_uint63 (Uint63.of_Z z).

(** The literals [0.7] and [1.3]: the binary64 values nearest to them. *)
Definition LOW_FACTOR : float := 0x1.6666666666666p-1%float.
Definition HIGH_FACTOR : float := 0x1.4cccccccccccdp+0%float.

(** [IFeederReading], without its audit fields. *)
Record IFeederReading := {
  reading_date : Z;
  reading_feeder : string;
  cumulativeEnergyConsumption : float }.

(** The [businessHub] and [region] of a feeder: a populated document
    [{ name }], a plain string, or anything else. *)
Inductive Ref :=
| Populated (name : string)
| Plain (s : string)
| Unresolved.

(** [PopulatedFeeder]; [feeder_id] is [String(feeder._id)]. *)
Record PopulatedFeeder := {
  feeder_id : string;
  feeder_name : string;
  businessHub : Ref;
  region : Ref;
  band : string;
  dailyEnergyUptake : float;
  monthlyDeliveryPlan : float }.

(** The interface [FailedChecks]. *)
Record FailedChecks := {
  fc_feederName : string;
  fc_businessHub : string;
  fc_region : string;
  fc_date : string;
  fc_failedChecks : list string }.

(** The name of a reference as the report controller reads it. *)
Definition refName (r : Ref) : string :=
  match r with
  | Populated name => name
  | Plain s => s
  | Unresolved => "Unknown"
  end.

(** The name of a reference as [addAnalysisSheetsToWorkbook] reads it:
    [typeof r === 'object' ? r.name : 'Unknown']. *)
Definition objectName (r : Ref) : string :=
  match r with
  | Populated name => name
  | Plain _ | Unresolved => "Unknown"
  end.

(** [parts.join(sep)] *)
Fixpoint join (sep : string) (parts : list string) : string :=
  match parts with
  | [] => ""
  | [x] => x
  | x :: rest => (x ++ sep ++ join sep rest)%string
  end.

(** The five rule labels, the two further categories and the summary. *)
Definition DECLINE : string := "Actual D-0 < Actual D-1".
Definition NOM_LOW : string := "< 70% Nom".
Definition NOM_HIGH : string := "> 130% Nom".
Definition UPTAKE_LOW : string := "< 70% Daily Uptake".
Definition UPTAKE_HIGH : string := "> 130% Daily Uptake".
Definition POSITIVE_VARIANCE : string := "Positive Variance".
Definition NO_FLAGS : string := "No Flags".
Definition FAILED_CHECKS_SUMMARY : string := "Failed Checks Summary".

Definition analysisCategories : list string :=
  [DECLINE; NOM_LOW; NOM_HIGH; UPTAKE_LOW; UPTAKE_HIGH;
   POSITIVE_VARIANCE; NO_FLAGS; FAILED_CHECKS_SUMMARY].



End Model.

(** ** The report controller: matrix builder and compliance checks *)

Module Report.
Import Dates Columns Model.

Section Controller.

(** [utils/formatDate] is not among the sources: the calendar-day key of a
    date is a parameter of the controller. *)
Variable formatDate : Z -> string.

(** The [readingMap] of a feeder: [readingMap.set(formatDate(r.date), r)]
    for each reading in turn, so a later reading with the same key wins. *)
Definition readingMapOf (readings : list IFeederReading)
  : gmap string IFeederReading :=
  fold_left (fun m r => <[formatDate (reading_date r) := r]> m) readings ∅.

(** The three cells written for one date, the column of the first one and
    the fill of the variance cell. *)
Record DateCells := {
  dc_col : Z;
  nomination : float;
  actual : float;
  variance : float;
  dc_fill : string }.

Definition varianceFill (variance : float) : string :=
  if (0 <? variance)%float then "FFFF0000"
  else if (variance <? 0)%float then "FF00FF00"
  else "FFFFFFFF".

(** The [for] loop of [populateDateSpecificData] from index [i] on, with
    [dateColIndex] and [currentPrevActual] as they stand at that index. *)
Fixpoint dateLoop (feeder : PopulatedFeeder)
    (readingMap : gmap string IFeederReading)
    (dates : list Z) (i : nat) (dateColIndex : Z) (currentPrevActual : float)
  : list DateCells :=
  match dates with
  | [] => []
  | d :: rest =>
      let reading := readingMap !! formatDate d in
      let nomination := (dailyEnergyUptake feeder * numOfZ (Z.of_nat i + 1))%float in
      let actual :=
        match reading with
        | Some r => cumulativeEnergyConsumption r
        | None => currentPrevActual
        end in
      let variance := (actual - nomination)%float in
      {| dc_col := dateColIndex;
         nomination := nomination;
         actual := actual;
         variance := variance;
         dc_fill := varianceFill variance |}
      :: dateLoop feeder readingMap rest (S i) (dateColIndex + 4) actual
  end.

Definition populateDateSpecificData (feeder : PopulatedFeeder)
    (dates : list Z) (readingMap : gmap string IFeederReading)
    (prevActual : float) : list DateCells :=
  dateLoop feeder readingMap dates 0%nat 9 prevActual.

(** The cell addresses [populateDateSpecificData] writes for one date. *)
Definition cellAddresses (rowIndex : Z) (c : DateCells) : list (string * Z) :=
  [(getColumnLetter (dc_col c), rowIndex);
   (getColumnLetter (dc_col c + 1), rowIndex);
   (getColumnLetter (dc_col c + 2), rowIndex)].

(** [previousDayActual] as [runComplianceChecks] settles it. *)
Definition previousDayActualOf (readingMap : gmap string IFeederReading)
    (lastDate : Z) (dayIndex : Z) (prevActual : float) : float :=
  if 1 <? dayIndex then
    match readingMap !! formatDate (addUTCDays lastDate (-1)) with
    | Some prevReading => cumulativeEnergyConsumption prevReading
    | None => 0%float
    end
  else prevActual.

(** The three groups of checks, each pushing at most one label. *)
Definition declineCheck (dayIndex : Z) (actual previousDayActual : float)
  : list string :=
  if (1 <? dayIndex) && (actual <=? previousDayActual)%float
  then [DECLINE] else [].

Definition nominationCheck (actual nomination : float) : list string :=
  if (actual <? LOW_FACTOR * nomination)%float then [NOM_LOW]
  else if (HIGH_FACTOR * nomination <? actual)%float then [NOM_HIGH]
  else [].

Definition dailyUptakeCheck (dayIndex : Z)
    (actual previousDayActual dailyUptake : float) : list string :=
  if 1 <? dayIndex then
    let dailyActual := (actual - previousDayActual)%float in
    if (dailyActual <? LOW_FACTOR * dailyUptake)%float then [UPTAKE_LOW]
    else if (HIGH_FACTOR * dailyUptake <? dailyActual)%float then [UPTAKE_HIGH]
    else []
  else [].

(** The body of [runComplianceChecks] once [lastDate] is known. *)
Definition complianceChecksOn (feeder : PopulatedFeeder)
    (readingMap : gmap string IFeederReading)
    (lastDate : Z) (dayIndex : Z) (prevActual : float) : list string :=
  match readingMap !! formatDate lastDate with
  | None => []
  | Some lastReading =>
      if (cumulativeEnergyConsumption lastReading <=? 0)%float then []
      else
        let nomination := (dailyEnergyUptake feeder * numOfZ dayIndex)%float in
        let actual := cumulativeEnergyConsumption lastReading in
        let previousDayActual :=
          previousDayActualOf readingMap lastDate dayIndex prevActual in
        declineCheck dayIndex actual previousDayActual
        ++ nominationCheck actual nomination
        ++ dailyUptakeCheck dayIndex actual previousDayActual
             (dailyEnergyUptake feeder)
  end.

(** [runComplianceChecks].  With no date at all [dates[dates.length - 1]]
    is undefined and [formatDate] is applied to it: what happens then is
    not settled by the sources, and the model gives [None]. *)
Definition runComplianceChecks (feeder : PopulatedFeeder)
    (readingMap : gmap string IFeederReading)
    (dates : list Z) (prevActual : float) : option (list string) :=
  match last dates with
  | None => None
  | Some lastDate =>
      Some (complianceChecksOn feeder readingMap lastDate
              (Z.of_nat (length dates)) prevActual)
  end.

(** The rows [populateFeederData] writes on the main sheet. *)
Inductive SheetRow :=
| RegionBanner (rowIndex : Z) (regionName : string)
| FeederRow (rowIndex : Z) (serial : Z) (feeder : PopulatedFeeder)
    (cells : list DateCells).

Record BuilderState := {
  rowIndex : Z;
  feederSerial : Z;
  sheet : list SheetRow;
  failedChecksSummary : list FailedChecks }.

(** [feedersByRegion]: a [Map], so regions keep the order in which they
    were first met and feeders their order within a region. *)
Fixpoint groupInsert (regionName : string) (feeder : PopulatedFeeder)
    (groups : list (string * list PopulatedFeeder))
  : list (string * list PopulatedFeeder) :=
  match groups with
  | [] => [(regionName, [feeder])]
  | (k, fs) :: rest =>
      if String.eqb k regionName then (k, fs ++ [feeder]) :: rest
      else (k, fs) :: groupInsert regionName feeder rest
  end.

Definition feedersByRegion (feeders : list PopulatedFeeder)
  : list (string * list PopulatedFeeder) :=
  fold_left (fun groups f => groupInsert (refName (region f)) f groups) feeders [].

(** The summary entry pushed for a feeder with failed checks. *)
Definition summaryEntry (regionName : string) (feeder : PopulatedFeeder)
    (lastDate : Z) (feederFailedChecks : list string) : FailedChecks :=
  {| fc_feederName := feeder_name feeder;
     fc_businessHub := refName (businessHub feeder);
     fc_region := regionName;
     fc_date := formatDate lastDate;
     fc_failedChecks := feederFailedChecks |}.

(** What one feeder adds to [failedChecksSummary]. *)
Definition complianceEntries (includeCompliance : bool)
    (regionName : string) (feeder : PopulatedFeeder)
    (readingMap : gmap string IFeederReading) (dates : list Z)
    (prevActual : float) : option (list FailedChecks) :=
  if includeCompliance then
    match last dates with
    | None => None
    | Some lastDate =>
        match runComplianceChecks feeder readingMap dates prevActual with
        | None => None
        | Some feederFailedChecks =>
            if (0 <? length feederFailedChecks)%nat
            then Some [summaryEntry regionName feeder lastDate feederFailedChecks]
            else Some []
        end
    end
  else Some [].

(** The body of the loop over the feeders of one region. *)
Definition feederStep (includeCompliance : bool) (dates : list Z)
    (readingsByFeeder : gmap string (list IFeederReading))
    (regionName : string) (st : BuilderState) (feeder : PopulatedFeeder)
  : option BuilderState :=
  let readings := default [] (readingsByFeeder !! feeder_id feeder) in
  let readingMap := readingMapOf readings in
  let prevActual := 0%float in
  let cells := populateDateSpecificData feeder dates readingMap prevActual in
  match complianceEntries includeCompliance regionName feeder readingMap
          dates prevActual with
  | None => None
  | Some entries =>
      Some {| rowIndex := rowIndex st + 1;
              feederSerial := feederSerial st + 1;
              sheet := sheet st ++ [FeederRow (rowIndex st) (feederSerial st) feeder cells];
              failedChecksSummary := failedChecksSummary st ++ entries |}
  end.

Fixpoint feedersLoop (includeCompliance : bool) (dates : list Z)
    (readingsByFeeder : gmap string (list IFeederReading))
    (regionName : string) (regionFeeders : list PopulatedFeeder)
    (st : BuilderState) : option BuilderState :=
  match regionFeeders with
  | [] => Some st
  | feeder :: rest =>
      match feederStep includeCompliance dates readingsByFeeder regionName st feeder with
      | None => None
      | Some st' =>
          feedersLoop includeCompliance dates readingsByFeeder regionName rest st'
      end
  end.

Fixpoint regionsLoop (includeCompliance : bool) (dates : list Z)
    (readingsByFeeder : gmap string (list IFeederReading))
    (groups : list (string * list PopulatedFeeder))
    (st : BuilderState) : option BuilderState :=
  match groups with
  | [] => Some st
  | (regionName, regionFeeders) :: rest =>
      let banner :=
        {| rowIndex := rowIndex st + 1;
           feederSerial := feederSerial st;
           sheet := sheet st ++ [RegionBanner (rowIndex st) regionName];
           failedChecksSummary := failedChecksSummary st |} in
      match feedersLoop includeCompliance dates readingsByFeeder regionName
              regionFeeders banner with
      | None => None
      | Some st' =>
          regionsLoop includeCompliance dates readingsByFeeder rest st'
      end
  end.

(** [populateFeederData]: the rows of the main sheet and the summary. *)
Definition populateFeederData (feeders : list PopulatedFeeder)
    (dates : list Z) (readingsByFeeder : gmap string (list IFeederReading))
    (includeCompliance : bool) : option BuilderState :=
  regionsLoop includeCompliance dates readingsByFeeder
    (feedersByRegion feeders)
    {| rowIndex := 5; feederSerial := 1; sheet := []; failedChecksSummary := [] |}.


End Controller.

End Report.

(** ** [addAnalysisSheetsToWorkbook]: compliance checks and category routing *)

Module Analysis.
Import Dates Columns Model.

Section Router.

Variable formatDate : Z -> string.

(** A string as a condition: every string but the empty one holds. *)
Definition truthy (s : string) : bool := negb (String.eqb s "").

(** [strings.sort()]: ascending by code units. *)
Fixpoint insertString (s : string) (sorted : list string) : list string :=
  match sorted with
  | [] => [s]
  | t :: rest =>
      if String.leb s t then s :: t :: rest else t :: insertString s rest
  end.

Definition sortStrings (l : list string) : list string :=
  fold_right insertString [] l.

(** [dates.findIndex(p)], counting from [i]; [-1] when no date passes. *)
Fixpoint findIndexFrom (p : Z -> bool) (dates : list Z) (i : Z) : Z :=
  match dates with
  | [] => -1
  | d :: rest => if p d then i else findIndexFrom p rest (i + 1)
  end.

Definition findIndex (p : Z -> bool) (dates : list Z) : Z :=
  findIndexFrom p dates 0.

(** What the router has built so far: the row of the main sheet it is at,
    the calls [copyRowToAnalysisSheet(workbook, worksheet, row, sheet)] it
    made, as pairs [(sheet, row)], and [failedChecksSummary]. *)
Record RouterState := {
  rowIndex : Z;
  copies : list (string * Z);
  failedChecksSummary : list FailedChecks }.

(** [lastDateStr]: the greatest key among the feeder's readings. *)
Definition lastDateStrOf (readings : list IFeederReading) : option string :=
  last (sortStrings (map (fun r => formatDate (reading_date r)) readings)).

(** [lastReading]: looked up only under a key that holds as a condition. *)
Definition lastReadingOf (readings : list IFeederReading)
  : option IFeederReading :=
  match lastDateStrOf readings with
  | Some lastDateStr =>
      if truthy lastDateStr
      then Report.readingMapOf formatDate readings !! lastDateStr
      else None
  | None => None
  end.

(** [previousDayActual]: the reading keyed by the day before the last
    reading's date, or 0. *)
Definition previousDayActualOf (readings : list IFeederReading)
    (lastReading : IFeederReading) : float :=
  match Report.readingMapOf formatDate readings
          !! formatDate (addUTCDays (reading_date lastReading) (-1)) with
  | Some prevReading => cumulativeEnergyConsumption prevReading
  | None => 0%float
  end.

(** [dayIndex]: the place of the last reading's key among the dates, from
    1, and 0 when no date has that key. *)
Definition dayIndexOf (dates : list Z) (lastDateStr : string) : Z :=
  findIndex (fun d => String.eqb (formatDate d) lastDateStr) dates + 1.

(** The labels pushed on [failedChecks] inside [if (actual > 0)]: the
    same three groups of tests as in the report controller, each push
    followed by a copy of the row to the sheet of that label. *)
Definition failedChecksOf (feeder : PopulatedFeeder)
    (readings : list IFeederReading) (dates : list Z)
    (lastDateStr : string) (lastReading : IFeederReading) : list string :=
  let previousDayActual := previousDayActualOf readings lastReading in
  let dayIndex := dayIndexOf dates lastDateStr in
  let nomination := (dailyEnergyUptake feeder * numOfZ dayIndex)%float in
  let actual := cumulativeEnergyConsumption lastReading in
  Report.declineCheck dayIndex actual previousDayActual
  ++ Report.nominationCheck actual nomination
  ++ Report.dailyUptakeCheck dayIndex actual previousDayActual
       (dailyEnergyUptake feeder).

(** The body of the loop over the feeders of one region: the copies made
    for the feeder at row [row] and the entries pushed on the summary. *)
Definition routeFeeder (regionName : string) (feeder : PopulatedFeeder)
    (readings : list IFeederReading) (dates : list Z) (row : Z)
  : list (string * Z) * list FailedChecks :=
  match lastDateStrOf readings, lastReadingOf readings with
  | Some lastDateStr, Some lastReading =>
      let dayIndex := dayIndexOf dates lastDateStr in
      let nomination := (dailyEnergyUptake feeder * numOfZ dayIndex)%float in
      let actual := cumulativeEnergyConsumption lastReading in
      let variance := (actual - nomination)%float in
      if (0 <? actual)%float then
        let failedChecks :=
          failedChecksOf feeder readings dates lastDateStr lastReading in
        (map (fun label => (label, row)) failedChecks
         ++ (if (0 <=? variance)%float then [(POSITIVE_VARIANCE, row)] else [])
         ++ (if (length failedChecks =? 0)%nat then [(NO_FLAGS, row)] else []),
         if (length failedChecks =? 0)%nat then []
         else [{| fc_feederName := feeder_name feeder;
                  fc_businessHub := objectName (businessHub feeder);
                  fc_region := regionName;
                  fc_date := lastDateStr;
                  fc_failedChecks := failedChecks |}])
      else ([], [])
  | _, _ => ([], [])
  end.

Definition feederStep (dates : list Z)
    (readingsByFeeder : gmap string (list IFeederReading))
    (regionName : string) (st : RouterState) (feeder : PopulatedFeeder)
  : RouterState :=
  let readings := default [] (readingsByFeeder !! feeder_id feeder) in
  let '(copied, entries) :=
    routeFeeder regionName feeder readings dates (rowIndex st) in
  {| rowIndex := rowIndex st + 1;
     copies := copies st ++ copied;
     failedChecksSummary := failedChecksSummary st ++ entries |}.




End Router.

End Analysis.

(** ** [FeederDataService]: the cache of range readings *)

Module Cache.
Import Model.

Section Service.

(** [Date.prototype.toISOString], on valid dates. *)
Variable toISOString : Z -> string.

(** [CACHE_TTL]: five minutes. *)
Definition CACHE_TTL : Z := 5 * 60 * 1000.

(** The two static fields of the service. *)
Record CacheState := {
  readingsCache : gmap string (list IFeederReading);
  cacheTimestamp : Z }.

Definition initial : CacheState :=
  {| readingsCache := ∅; cacheTimestamp := 0 |}.

Definition cacheKeyOf (startDate endDate : Z) : string :=
  (toISOString startDate ++ "-" ++ toISOString endDate)%string.

(** The part of [getAllReadingsInRange] before its [await]: the cached
    readings, when the key is present and the stamp is fresh at [now]. *)
Definition cached (st : CacheState) (cacheKey : string) (now : Z)
  : option (list IFeederReading) :=
  match readingsCache st !! cacheKey with
  | Some readings =>
      if now - cacheTimestamp st <? CACHE_TTL then Some readings else None
  | None => None
  end.

(** The part after the [await]: clear, set, stamp with the [now] read at
    the start of the call. *)
Definition update (st : CacheState) (cacheKey : string) (now : Z)
    (readings : list IFeederReading) : CacheState :=
  {| readingsCache := <[cacheKey := readings]> ∅; cacheTimestamp := now |}.

(** [getAllReadingsInRange], run without interruption.  [now] is the value
    of [Date.now()] and [fetched] the answer of the reading store to the
    range query, used only on a miss. *)
Definition getAllReadingsInRange (st : CacheState)
    (startDate endDate : Z) (now : Z) (fetched : list IFeederReading)
  : list IFeederReading * CacheState :=
  let cacheKey := cacheKeyOf startDate endDate in
  match cached st cacheKey now with
  | Some readings => (readings, st)
  | None => (fetched, update st cacheKey now fetched)
  end.

(** The states of the cache when calls overlap: every call runs its first
    part, and on a miss, later, its second part with the key and the time
    it read at its start; the parts of different calls interleave freely. *)
Inductive reachable : CacheState -> Prop :=
| reachable_initial : reachable initial
| reachable_update st startDate endDate now fetched :
    reachable st ->
    reachable (update st (cacheKeyOf startDate endDate) now fetched).

End Service.

End Cache.

(** ** The request handlers that take a region or business-hub filter *)

Module Handlers.
Import Dates Model.

(** The filter handed to [getFeedersWithPopulatedData]: the ids of the
    region and the business hub, when set. *)
Record FeederFilter := {
  filter_region : option string;
  filter_businessHub : option string }.

Definition noFilter : FeederFilter :=
  {| filter_region := None; filter_businessHub := None |}.

(** What a handler does, in order: the calls to its collaborators and the
    reply.  [WriteFile] is the workbook written to the response. *)
Inductive Event :=
| FetchFeeders (filter : FeederFilter)
| FetchReadings (startDate endDate : Z)
| PopulateFeederData (feeders : list PopulatedFeeder) (dates : list Z)
    (includeCompliance : bool)
| SendEmail (recipient : string)
| WriteFile
| Reply (status : Z) (message : string).

Section Orchestrator.

(** [Region.findOne] and [BusinessHub.findOne] with the anchored
    case-insensitive pattern of the name: the id of the document found. *)
Variable findRegion : string -> option string.
Variable findHub : string -> option string.

(** [FeederDataService.getFeedersWithPopulatedData(filter)] *)
Variable findFeeders : FeederFilter -> list PopulatedFeeder.

(** A query or body parameter as a condition: present and not empty. *)
Definition given (param : option string) : option string :=
  match param with
  | Some s => if String.eqb s "" then None else Some s
  | None => None
  end.

(** The filter of [generateSpecificDateReport]: a name that does not
    resolve ends the request with status 404. *)
Definition strictFilter (region businessHub : option string)
  : FeederFilter + Event :=
  let withHub (regionId : option string) : FeederFilter + Event :=
    match given businessHub with
    | Some hub =>
        match findHub hub with
        | None => inr (Reply 404 ("Business Hub '" ++ hub ++ "' not found"))
        | Some hubDoc =>
            inl {| filter_region := regionId; filter_businessHub := Some hubDoc |}
        end
    | None => inl {| filter_region := regionId; filter_businessHub := None |}
    end in
  match given region with
  | Some name =>
      match findRegion name with
      | None => inr (Reply 404 ("Region '" ++ name ++ "' not found"))
      | Some regionDoc => withHub (Some regionDoc)
      end
  | None => withHub None
  end.

(** The filter of [sendReportByEmail] and [generateCustomReport]:
    [if (regionDoc) feederFilter.region = regionDoc._id], and the same for
    the hub. *)
Definition lenientFilter (region businessHub : option string) : FeederFilter :=
  {| filter_region :=
       match given region with
       | Some name => findRegion name
       | None => None
       end;
     filter_businessHub :=
       match given businessHub with
       | Some hub => findHub hub
       | None => None
       end |}.

(** The query of [generateSpecificDateReport]; [q_date] is [None] when the
    parameter is missing, [Some None] when it does not parse. *)
Record DateQuery := {
  q_date : option (option Z);
  q_region : option string;
  q_businessHub : option string }.

Definition generateSpecificDateReport (q : DateQuery) : list Event :=
  match q_date q with
  | None => [Reply 400 "Date is required"]
  | Some None => [Reply 400 "Invalid date format"]
  | Some (Some reportDate) =>
      let startDate := startOfUTCDay reportDate in
      let endDate := endOfUTCDay reportDate in
      match strictFilter (q_region q) (q_businessHub q) with
      | inr reply => [reply]
      | inl feederFilter =>
          let feeders := findFeeders feederFilter in
          if (length feeders =? 0)%nat then
            [FetchFeeders feederFilter;
             Reply 404 "No feeders found with the specified criteria"]
          else
            [FetchFeeders feederFilter;
             FetchReadings startDate endDate;
             PopulateFeederData feeders [reportDate] true;
             WriteFile]
      end
  end.

(** The body of [sendReportByEmail], with the dates parsed. *)
Record EmailBody := {
  b_startDate : option Z;
  b_endDate : option Z;
  b_date : option Z;
  b_region : option string;
  b_businessHub : option string;
  b_email : option string;
  b_includeAnalysis : bool }.

Definition sendReportByEmail (b : EmailBody) : list Event :=
  match given (b_email b) with
  | None => [Reply 400 "Recipient email is required"]
  | Some email =>
      let range :=
        match b_startDate b, b_endDate b with
        | Some s, Some e => Some (s, e)
        | _, _ =>
            match b_date b with
            | Some d => Some (d, d)
            | None => None
            end
        end in
      match range with
      | None => [Reply 400 "startDate/endDate or date is required"]
      | Some (startD, endD) =>
          let feederFilter := lenientFilter (b_region b) (b_businessHub b) in
          let feeders := findFeeders feederFilter in
          if (length feeders =? 0)%nat then
            [FetchFeeders feederFilter;
             Reply 404 "No feeders found with the specified criteria"]
          else
            [FetchFeeders feederFilter;
             FetchReadings startD endD;
             PopulateFeederData feeders (getDatesInRange startD endD)
               (b_includeAnalysis b);
             SendEmail email;
             Reply 200 "Report sent successfully!"]
      end
  end.

(** The query of [generateCustomReport], with the dates parsed. *)
Record CustomQuery := {
  c_reportType : option string;
  c_startDate : option Z;
  c_endDate : option Z;
  c_region : option string;
  c_businessHub : option string;
  c_includeAnalysis : bool }.

Definition generateCustomReport (q : CustomQuery) : list Event :=
  match given (c_reportType q), c_startDate q, c_endDate q with
  | Some _, Some start, Some end_ =>
      let feederFilter := lenientFilter (c_region q) (c_businessHub q) in
      let feeders := findFeeders feederFilter in
      if (length feeders =? 0)%nat then
        [FetchFeeders feederFilter;
         Reply 404 "No feeders found with the specified criteria"]
      else
        [FetchFeeders feederFilter;
         FetchReadings start end_;
         PopulateFeederData feeders (getDatesInRange start end_)
           (c_includeAnalysis q);
         WriteFile]
  | _, _, _ => [Reply 400 "reportType, startDate, and endDate are required"]
  end.

(** A handler fetched readings. *)
Definition fetchesReadings (trace : list Event) : bool :=
  existsb (fun e => match e with FetchReadings _ _ => true | _ => false end) trace.

(** A handler reported a not-found condition. *)
Definition repliesNotFound (trace : list Event) : bool :=
  existsb (fun e => match e with Reply 404 _ => true | _ => false end) trace.

End Orchestrator.

End Handlers.


(** ** Concrete runs *)

Module Scenario.
Import Dates Model.

(** Modelled from the spec: [utils/formatDate] is not among the sources.
    The spec has readings looked up by exact calendar-day match on UTC
    days, so the key of a date names its UTC calendar day, here by the
    day's number since the epoch.  It serves the concrete runs only: the
    properties are proved for every [formatDate]. *)
Definition dayKey (t : Z) : string := pretty (dayNumber t).

(** 2023-11-14, 15 and 16, at midnight UTC: the days 19675 to 19677. *)
Definition day1 : Z := 1699920000000.
Definition day2 : Z := 1700006400000.
Definition day3 : Z := 1700092800000.

Definition feederWith (dailyUptake : float) : PopulatedFeeder :=
  {| feeder_id := "f1";
     feeder_name := "Feeder 1";
     businessHub := Populated "Hub 1";
     region := Populated "Region 1";
     band := "A";
     dailyEnergyUptake := dailyUptake;
     monthlyDeliveryPlan := 0%float |}.

Definition readingOn (day : Z) (value : float) : IFeederReading :=
  {| reading_date := day;
     reading_feeder := "f1";
     cumulativeEnergyConsumption := value |}.

(** A gap: 100 read on the first day, nothing on the second, 90 on the
    third. *)
Definition gapReadings : list IFeederReading :=
  [readingOn day1 100%float; readingOn day3 90%float].

(** A reading on the first day of the range only. *)
Definition firstDayOnly : list IFeederReading :=
  [readingOn day1 100%float].

(** A directory with one region and one hub, and two feeders of which the
    first belongs to them. *)
Definition oneRegion (name : string) : option string :=
  if String.eqb name "Ibadan" then Some "region-1" else None.

Definition oneHub (name : string) : option string :=
  if String.eqb name "Dugbe" then Some "hub-1" else None.

Definition twoFeeders (filter : Handlers.FeederFilter) : list PopulatedFeeder :=
  match Handlers.filter_region filter, Handlers.filter_businessHub filter with
  | None, None => [feederWith 100%float; feederWith 30%float]
  | _, _ => [feederWith 100%float]
  end.

(** The request bodies and queries of the three handlers for the region
    'Atlantis', which the directory does not hold. *)
Definition atlantisByEmail : Handlers.EmailBody :=
  {| Handlers.b_startDate := Some day1;
     Handlers.b_endDate := Some day2;
     Handlers.b_date := None;
     Handlers.b_region := Some "Atlantis";
     Handlers.b_businessHub := None;
     Handlers.b_email := Some "ops@example.com";
     Handlers.b_includeAnalysis := true |}.

Definition atlantisCustom : Handlers.CustomQuery :=
  {| Handlers.c_reportType := Some "energy";
     Handlers.c_startDate := Some day1;
     Handlers.c_endDate := Some day2;
     Handlers.c_region := Some "Atlantis";
     Handlers.c_businessHub := None;
     Handlers.c_includeAnalysis := true |}.

Definition atlantisOnDate : Handlers.DateQuery :=
  {| Handlers.q_date := Some (Some day1);
     Handlers.q_region := Some "Atlantis";
     Handlers.q_businessHub := None |}.

End Scenario.

(** ** Grouping the fetched readings *)

Module Fetch.
Import Model.

(** One turn of the loop of [groupReadingsByFeeder]: open an empty list
    under a feeder id met for the first time, then push the reading on the
    list of its feeder. *)
Definition groupStep (readingsByFeeder : gmap string (list IFeederReading))
    (reading : IFeederReading) : gmap string (list IFeederReading) :=
  let feederId := reading_feeder reading in
  let opened :=
    match readingsByFeeder !! feederId with
    | Some _ => readingsByFeeder
    | None => <[feederId := []]> readingsByFeeder
    end in
  alter (fun l => l ++ [reading]) feederId opened.

Definition groupReadingsByFeeder (readings : list IFeederReading)
  : gmap string (list IFeederReading) :=
  fold_left groupStep readings ∅.

End Fetch.

(** ** The header rows of the main sheet *)

Module Headers.
Import Columns Model.

(** What the header code does to the sheet.  A cell is named by its column
    letters and its row. *)
Inductive SheetWrite :=
| MergeCells (range : string)
| SetValue (column : string) (row : Z) (value : string)
| SetBorder (column : string) (row : Z)
| SetWidth (col : Z) (width : Z).

(** The range merged for a date whose block starts at [columnIndex]:
    the three cells of row 3 over the block. *)
Definition dateHeaderRange (columnIndex : Z) : string :=
  (getColumnLetter columnIndex ++ "3:" ++ getColumnLetter (columnIndex + 2) ++ "3")%string.

Definition subHeaderLabels : list string := ["Nomination"; "Actual"; "Variance"].

(** The sub-headers of one block: [label] at column [col], from [col] on. *)
Fixpoint subHeaders (labels : list string) (col : Z) : list SheetWrite :=
  match labels with
  | [] => []
  | label :: rest =>
      [SetValue (getColumnLetter col) 4 label;
       SetBorder (getColumnLetter col) 4;
       SetWidth col 15]
      ++ subHeaders rest (col + 1)
  end.

Section WithFormatDate.

Variable formatDate : Z -> string.

(** The [for (const date of dates)] loop of [setupDateHeaders]. *)
Fixpoint dateHeaders (dates : list Z) (columnIndex : Z) : list SheetWrite :=
  match dates with
  | [] => []
  | date :: rest =>
      [MergeCells (dateHeaderRange columnIndex);
       SetValue (getColumnLetter columnIndex) 3 (formatDate date);
       SetBorder (getColumnLetter columnIndex) 3]
      ++ subHeaders subHeaderLabels columnIndex
      ++ dateHeaders rest (columnIndex + 4)
  end.

(** The fixed widths of the seven leading columns, set after the loop. *)
Fixpoint fixedWidths (columnWidths : list Z) (i : Z) : list SheetWrite :=
  match columnWidths with
  | [] => []
  | width :: rest => SetWidth (i + 1) width :: fixedWidths rest (i + 1)
  end.

Definition setupDateHeaders (dates : list Z) : list SheetWrite :=
  dateHeaders dates 9 ++ fixedWidths [10; 20; 35; 15; 15; 15; 15] 0.

End WithFormatDate.

(** The inner [for (let j = 0; j < 3; j++)] loop of [addDateColumnBorders]. *)
Definition blockBorders (rowIndex dateColIndex : Z) : list SheetWrite :=
  map (fun j => SetBorder (getColumnLetter (dateColIndex + j)) rowIndex) [0; 1; 2].

(** [addDateColumnBorders]: [dateCount] blocks from [dateColIndex] on. *)
Fixpoint bordersFrom (rowIndex : Z) (dateCount : nat) (dateColIndex : Z)
  : list SheetWrite :=
  match dateCount with
  | O => []
  | S n =>
      blockBorders rowIndex dateColIndex
      ++ bordersFrom rowIndex n (dateColIndex + 4)
  end.

Definition addDateColumnBorders (rowIndex : Z) (dateCount : nat)
  : list SheetWrite :=
  bordersFrom rowIndex dateCount 9.

End Headers.

(** ** Copying the merged header cells to an analysis sheet *)

Module Merges.
Import Columns Model.

(** An integer in a template literal: its decimal digits, with a sign
    when negative. *)
Equations? digitsLoop (n : Z) (acc : string) : string
  by wf (Z.to_nat n) lt :=
  digitsLoop n acc with Z_gt_le_dec n 0 => {
    | left _ := digitsLoop (n / 10) (String (fromCharCode (48 + n mod 10)) acc);
    | right _ := acc }.
Proof.
  assert (n / 10 < n) by (apply Z.div_lt; lia).
  assert (0 <= n / 10) by (apply Z.div_pos; lia).
  lia.
Qed.

Definition numberToString (n : Z) : string :=
  if n =? 0 then "0"
  else if n <? 0 then String "-" (digitsLoop (- n) "")
  else digitsLoop n "".

(** The range merged for the banner of a region:
    [`A${rowIndex}:G${rowIndex}`]. *)
Definition bannerRange (rowIndex : Z) : string :=
  ("A" ++ numberToString rowIndex ++ ":G" ++ numberToString rowIndex)%string.

(** The classes [[A-Z]] and [\d] of the pattern. *)
Definition isUpper (c : ascii) : bool :=
  (65 <=? charCode c) && (charCode c <=? 90).

Definition isDigit (c : ascii) : bool :=
  (48 <=? charCode c) && (charCode c <=? 57).

(** The longest prefix of [s] whose characters pass [p], and the rest. *)
Fixpoint span (p : ascii -> bool) (s : string) : string * string :=
  match s with
  | EmptyString => (EmptyString, EmptyString)
  | String c rest =>
      if p c then let '(taken, others) := span p rest in (String c taken, others)
      else (EmptyString, s)
  end.

(** [/^([A-Z]+)(\d+):([A-Z]+)(\d+)$/.exec(rangeStr)]: the four groups.  The
    classes of two neighbouring parts share no character, so each group is
    the longest run of its class. *)
Definition matchRange (rangeStr : string)
  : option (string * string * string * string) :=
  let '(startCol, afterStartCol) := span isUpper rangeStr in
  let '(startRow, afterStartRow) := span isDigit afterStartCol in
  match afterStartRow with
  | String ":" afterColon =>
      let '(endCol, afterEndCol) := span isUpper afterColon in
      let '(endRow, afterEndRow) := span isDigit afterEndCol in
      if (0 <? String.length startCol)%nat && (0 <? String.length startRow)%nat
         && (0 <? String.length endCol)%nat && (0 <? String.length endRow)%nat
         && (String.length afterEndRow =? 0)%nat
      then Some (startCol, startRow, endCol, endRow)
      else None
  | _ => None
  end.

(** [parseInt(digits, 10)] on a run of digits. *)
Fixpoint parseDigits (digits : string) (value : Z) : Z :=
  match digits with
  | EmptyString => value
  | String c rest => parseDigits rest (value * 10 + (charCode c - 48))
  end.

Definition parseInt (digits : string) : Z := parseDigits digits 0.

(** A merged range of the source, with its corners as numbers. *)
Record Range := {
  rg_top : Z;
  rg_left : Z;
  rg_bottom : Z;
  rg_right : Z }.

Definition rangeOf (rangeStr : string) : option Range :=
  match matchRange rangeStr with
  | Some (startCol, startRow, endCol, endRow) =>
      Some {| rg_top := parseInt startRow;
              rg_left := colToNum startCol;
              rg_bottom := parseInt endRow;
              rg_right := colToNum endCol |}
  | None => None
  end.

(** The body of the loop over [mergedRanges] at the cell [(row, col)]:
    the range to merge on the analysis sheet, if any. *)
Definition mergeAt (row col : Z) (rangeStr : string) : option Range :=
  match rangeOf rangeStr with
  | Some range =>
      if (rg_top range <=? row) && (row <=? rg_bottom range)
         && (rg_left range <=? col) && (col <=? rg_right range)
      then
        if (row =? rg_top range) && (col =? rg_left range)
        then Some range else None
      else None
  | None => None
  end.

(** The merges made while the header rows are copied: columns 1 to
    [columnCount], rows 1 to 4, at the cells the source has as merged.
    [isMerged] and [mergedRanges] are read from the source sheet. *)
Definition headerMerges (isMerged : Z -> Z -> bool)
    (mergedRanges : list string) (columnCount : Z) : list Range :=
  flat_map
    (fun col =>
       flat_map
         (fun row =>
            if isMerged row col
            then omap (mergeAt row col) mergedRanges
            else [])
         (seqZ 1 4))
    (seqZ 1 columnCount).

End Merges.

(** ** The daily report of all feeders *)

Module Daily.
Import Dates Model Handlers.

Section Orchestrator.

Variable findFeeders : FeederFilter -> list PopulatedFeeder.



End Orchestrator.

End Daily.

(** * Vocabulary of the properties *)

Section Vocabulary.
Import Dates Model.

(** [n] consecutive midnights from [first] on, earliest first. *)
Definition daysFrom (first : Z) (n : nat) : list Z :=
  map (fun k => first + Z.of_nat k * MS_PER_DAY) (seq 0 n).

(** The actual of day [i] when that day has no reading: the value handed
    to the builder on the first day, the actual of the day before after. *)
Definition carriedFrom (rows : list Report.DateCells) (i : nat) (initial a : float)
  : Prop :=
  match i with
  | O => a = initial
  | S j => exists before, rows !! j = Some before /\ a = Report.actual before
  end.

(** The lists the three groups can make together: a sublist of the five
    labels in their fixed order, with at most one label of each pair. *)
Definition checkLists : list (list string) :=
  d ← [[]; [DECLINE]];
  n ← [[]; [NOM_LOW]; [NOM_HIGH]];
  u ← [[]; [UPTAKE_LOW]; [UPTAKE_HIGH]];
  [d ++ n ++ u].

(** No two labels of one pair, and no label twice. *)
Definition exclusive (failedChecks : list string) : Prop :=
  ~ (NOM_LOW ∈ failedChecks /\ NOM_HIGH ∈ failedChecks)
  /\ ~ (UPTAKE_LOW ∈ failedChecks /\ UPTAKE_HIGH ∈ failedChecks)
  /\ NoDup failedChecks.

#[global] Instance exclusive_dec l : Decision (exclusive l).
Proof. unfold exclusive. apply _. Defined.

(** Every label of a list of failed checks is one of the five rules. *)
Definition ruleLabels : list string :=
  [DECLINE; NOM_LOW; NOM_HIGH; UPTAKE_LOW; UPTAKE_HIGH].



Variable formatDate : Z -> string.

(** The list of failed checks the router builds for a feeder; [None] when
    the guard does not pass (no last reading, or a value not above 0). *)
Definition routerVerdict (feeder : PopulatedFeeder)
    (readings : list IFeederReading) (dates : list Z) : option (list string) :=
  match Analysis.lastDateStrOf formatDate readings,
        Analysis.lastReadingOf formatDate readings with
  | Some lastDateStr, Some lastReading =>
      if (0 <? cumulativeEnergyConsumption lastReading)%float
      then Some (Analysis.failedChecksOf formatDate feeder readings dates
                   lastDateStr lastReading)
      else None
  | _, _ => None
  end.


(** What a feeder adds to the controller's summary. *)
Definition controllerEntries (includeCompliance : bool) (dates : list Z)
    (readingsByFeeder : gmap string (list IFeederReading))
    (regionName : string) (feeder : PopulatedFeeder) : list FailedChecks :=
  default []
    (Report.complianceEntries formatDate includeCompliance regionName feeder
       (Report.readingMapOf formatDate
          (default [] (readingsByFeeder !! feeder_id feeder)))
       dates 0%float).

End Vocabulary.

Section LayoutVocabulary.
Import Columns Model.

(** The characters of a column name are capital letters. *)
Definition capitals (s : string) : Prop :=
  Forall (fun c => 65 <= charCode c <= 90) (list_ascii_of_string s).

(** The characters of a number are decimal digits. *)
Definition digits (s : string) : Prop :=
  Forall (fun c => 48 <= charCode c <= 57) (list_ascii_of_string s).

(** The rows the loops over regions and feeders go through: the banner of
    a region, then one row for each of its feeders, rows and serial
    numbers counted up. *)
Inductive Slot :=
| BannerSlot (row : Z) (regionName : string)
| FeederSlot (row serial : Z) (regionName : string) (feeder : PopulatedFeeder).

Definition slotRow (slot : Slot) : Z :=
  match slot with
  | BannerSlot row _ => row
  | FeederSlot row _ _ _ => row
  end.

Definition slotSerial (slot : Slot) : option Z :=
  match slot with
  | BannerSlot _ _ => None
  | FeederSlot _ serial _ _ => Some serial
  end.

Definition slotFeeder (slot : Slot) : option PopulatedFeeder :=
  match slot with
  | BannerSlot _ _ => None
  | FeederSlot _ _ _ feeder => Some feeder
  end.

Fixpoint feederSlots (regionName : string) (feeders : list PopulatedFeeder)
    (row serial : Z) : list Slot :=
  match feeders with
  | [] => []
  | feeder :: rest =>
      FeederSlot row serial regionName feeder
      :: feederSlots regionName rest (row + 1) (serial + 1)
  end.

Fixpoint slots (groups : list (string * list PopulatedFeeder))
    (row serial : Z) : list Slot :=
  match groups with
  | [] => []
  | (regionName, regionFeeders) :: rest =>
      BannerSlot row regionName
      :: feederSlots regionName regionFeeders (row + 1) serial
      ++ slots rest (row + 1 + Z.of_nat (length regionFeeders))
           (serial + Z.of_nat (length regionFeeders))
  end.

(** A run of characters passing [p] ends at [rest]: [rest] is empty or
    starts with a character that does not pass. *)
Definition stops (p : ascii -> bool) (rest : string) : Prop :=
  match rest with
  | EmptyString => True
  | String c _ => p c = false
  end.




(** The name given as a filter, if any, is in the directory. *)
Definition resolves (find : string -> option string) (param : option string)
  : Prop :=
  match Handlers.given param with
  | Some name => find name <> None
  | None => True
  end.

(** The number of feeders in all groups. *)
Definition feederCount (groups : list (string * list PopulatedFeeder)) : nat :=
  length (concat (map snd groups)).

(** The sheets a classified row is copied to, in the order of the copies:
    the rules it failed, then 'Positive Variance' when [positive], then
    'No Flags' when it failed no rule. *)
Definition bucketsOf (failedChecks : list string) (positive : bool)
  : list string :=
  failedChecks
  ++ (if positive then [POSITIVE_VARIANCE] else [])
  ++ (if (length failedChecks =? 0)%nat then [NO_FLAGS] else []).

(** What holds of the sheets of a classified row, whatever rules failed. *)
Definition bucketsSound (failedChecks : list string) (positive : bool) : Prop :=
  NoDup (bucketsOf failedChecks positive)
  /\ Forall (fun label => label ∈ analysisCategories
                          /\ label <> FAILED_CHECKS_SUMMARY)
       (bucketsOf failedChecks positive)
  /\ Forall (fun label => label ∈ bucketsOf failedChecks positive
                          <-> label ∈ failedChecks) ruleLabels
  /\ (POSITIVE_VARIANCE ∈ bucketsOf failedChecks positive <-> positive = true)
  /\ (NO_FLAGS ∈ bucketsOf failedChecks positive <-> failedChecks = []).

#[global] Instance bucketsSound_dec fc b : Decision (bucketsSound fc b).
Proof. unfold bucketsSound. apply _. Defined.

(** Every list of failed checks lists its labels in the order of the
    rules, each once: it is the list of the rules cut down to the labels
    it holds, so it has at most three labels. *)
Definition inRuleOrder (failedChecks : list string) : Prop :=
  failedChecks = filter (fun label => label ∈ failedChecks) ruleLabels
  /\ (length failedChecks <= 3)%nat.

#[global] Instance inRuleOrder_dec l : Decision (inRuleOrder l).
Proof. unfold inRuleOrder. apply _. Defined.

(** The lists of one day: no check or one nomination label. *)
Definition singleDayLists : list (list string) := [[]; [NOM_LOW]; [NOM_HIGH]].

Variable formatDate : Z -> string.

(** The row the report controller writes on the main sheet for a slot. *)
Definition writtenRow (dates : list Z)
    (readingsByFeeder : gmap string (list IFeederReading)) (slot : Slot)
  : Report.SheetRow :=
  match slot with
  | BannerSlot row regionName => Report.RegionBanner row regionName
  | FeederSlot row serial _ feeder =>
      Report.FeederRow row serial feeder
        (Report.populateDateSpecificData formatDate feeder dates
           (Report.readingMapOf formatDate
              (default [] (readingsByFeeder !! feeder_id feeder)))
           0%float)
  end.

(** The variance of the day the router classifies, when it has one. *)
Definition lastDayVariance (feeder : PopulatedFeeder)
    (readings : list IFeederReading) (dates : list Z) : option float :=
  match Analysis.lastDateStrOf formatDate readings,
        Analysis.lastReadingOf formatDate readings with
  | Some lastDateStr, Some lastReading =>
      Some (cumulativeEnergyConsumption lastReading
            - dailyEnergyUptake feeder
              * numOfZ (Analysis.dayIndexOf formatDate dates lastDateStr))%float
  | _, _ => None
  end.


End LayoutVocabulary.

(** * Properties *)

(** ** The date range expander *)

Section DatesFacts.
Import Dates.

Lemma MS_PER_DAY_pos : 0 < MS_PER_DAY.
Proof. reflexivity. Qed.

Lemma startOfUTCDay_eq t : startOfUTCDay t = dayNumber t * MS_PER_DAY.
Proof.
  unfold startOfUTCDay, dayNumber.
  pose proof (Z.div_mod t MS_PER_DAY) as H.
  pose proof MS_PER_DAY_pos. lia.
Qed.

Lemma startOfUTCDay_le t : startOfUTCDay t <= t.
Proof.
  unfold startOfUTCDay.
  pose proof (Z.mod_pos_bound t MS_PER_DAY MS_PER_DAY_pos). lia.
Qed.

Lemma startOfUTCDay_idem t : startOfUTCDay (startOfUTCDay t) = startOfUTCDay t.
Proof.
  rewrite (startOfUTCDay_eq t). unfold startOfUTCDay.
  rewrite Z.mod_mul by (pose proof MS_PER_DAY_pos; lia). lia.
Qed.

Lemma dayNumber_startOfUTCDay t : dayNumber (startOfUTCDay t) = dayNumber t.
Proof.
  rewrite startOfUTCDay_eq. unfold dayNumber at 1.
  apply Z.div_mul. pose proof MS_PER_DAY_pos; lia.
Qed.

Lemma dayNumber_mono a b : a <= b -> dayNumber a <= dayNumber b.
Proof. intros. apply Z.div_le_mono; [apply MS_PER_DAY_pos | assumption]. Qed.

Lemma datesLoop_unfold cur e :
  datesLoop cur e =
  if Z_le_gt_dec cur e then cur :: datesLoop (addUTCDays cur 1) e else [].
Proof.
  rewrite datesLoop_equation_1.
  destruct (Z_le_gt_dec cur e); reflexivity.
Qed.

Lemma daysLeft_step cur e :
  cur <= e -> daysLeft cur e = S (daysLeft (addUTCDays cur 1) e).
Proof.
  intros Hle. unfold daysLeft, addUTCDays.
  replace (e - (cur + 1 * MS_PER_DAY)) with ((e - cur) + (-1) * MS_PER_DAY) by lia.
  rewrite Z.div_add by (pose proof MS_PER_DAY_pos; lia).
  assert (0 <= (e - cur) / MS_PER_DAY)
    by (apply Z.div_pos; [lia | apply MS_PER_DAY_pos]).
  lia.
Qed.

Lemma daysLeft_done cur e : e < cur -> daysLeft cur e = 0%nat.
Proof.
  intros Hlt. unfold daysLeft.
  assert ((e - cur) / MS_PER_DAY < 0)
    by (apply Z.div_lt_upper_bound; [apply MS_PER_DAY_pos | lia]).
  lia.
Qed.

Lemma daysFrom_cons first n :
  daysFrom first (S n) = first :: daysFrom (addUTCDays first 1) n.
Proof.
  unfold daysFrom. cbn [seq map]. f_equal; [lia |].
  rewrite <- seq_shift, map_map. apply map_ext.
  intros k. unfold addUTCDays. lia.
Qed.

(** The loop makes exactly [daysLeft] iterations, one midnight each. *)
Lemma datesLoop_daysFrom n : forall cur e,
  daysLeft cur e = n -> datesLoop cur e = daysFrom cur n.
Proof.
  induction n as [|n IH]; intros cur e Hn; rewrite datesLoop_unfold;
    destruct (Z_le_gt_dec cur e) as [Hle|Hgt].
  - rewrite (daysLeft_step cur e Hle) in Hn. discriminate.
  - reflexivity.
  - rewrite (daysLeft_step cur e Hle) in Hn. injection Hn as Hn.
    rewrite daysFrom_cons. f_equal. apply IH. assumption.
  - rewrite daysLeft_done in Hn by lia. discriminate.
Qed.

Lemma daysLeft_from_start s e :
  startOfUTCDay s <= e ->
  daysLeft (startOfUTCDay s) e = Z.to_nat (dayNumber e - dayNumber s + 1).
Proof.
  intros Hle. unfold daysLeft. f_equal. f_equal.
  rewrite startOfUTCDay_eq.
  replace (e - dayNumber s * MS_PER_DAY) with (e + (- dayNumber s) * MS_PER_DAY) by lia.
  rewrite Z.div_add by (pose proof MS_PER_DAY_pos; lia).
  unfold dayNumber. lia.
Qed.

Lemma getDatesInRange_daysFrom s e :
  startOfUTCDay s <= e ->
  getDatesInRange s e =
  daysFrom (startOfUTCDay s) (Z.to_nat (dayNumber e - dayNumber s + 1)).
Proof.
  intros Hle. unfold getDatesInRange.
  apply datesLoop_daysFrom, daysLeft_from_start, Hle.
Qed.

Lemma getDatesInRange_nil s e : e < startOfUTCDay s -> getDatesInRange s e = [].
Proof.
  intros Hlt. unfold getDatesInRange. rewrite datesLoop_unfold.
  destruct (Z_le_gt_dec (startOfUTCDay s) e); [lia | reflexivity].
Qed.

Lemma daysFrom_lookup first n k :
  (k < n)%nat -> daysFrom first n !! k = Some (first + Z.of_nat k * MS_PER_DAY).
Proof.
  intros Hk. unfold daysFrom. rewrite list_lookup_fmap.
  rewrite lookup_seq_lt by assumption. reflexivity.
Qed.

Lemma length_daysFrom first n : length (daysFrom first n) = n.
Proof. unfold daysFrom. rewrite length_map, length_seq. reflexivity. Qed.

Lemma daysFrom_sorted n : forall first, StronglySorted Z.lt (daysFrom first n).
Proof.
  induction n as [|n IH]; intros first.
  - constructor.
  - rewrite daysFrom_cons. constructor; [apply IH |].
    apply Forall_forall. intros x Hx. unfold daysFrom in Hx.
    apply list_elem_of_fmap in Hx. destruct Hx as (k & -> & _).
    unfold addUTCDays. pose proof MS_PER_DAY_pos. nia.
Qed.

End DatesFacts.

Section ExpanderClaim.
Import Dates.

Lemma last_daysFrom first n :
  last (daysFrom first (S n)) = Some (first + Z.of_nat n * MS_PER_DAY).
Proof.
  rewrite last_lookup, length_daysFrom. cbn [pred].
  apply daysFrom_lookup. lia.
Qed.

Lemma getDatesInRange_shape s e :
  getDatesInRange s e =
  if Z_le_gt_dec (startOfUTCDay s) e
  then daysFrom (startOfUTCDay s) (Z.to_nat (dayNumber e - dayNumber s + 1))
  else [].
Proof.
  destruct (Z_le_gt_dec (startOfUTCDay s) e).
  - apply getDatesInRange_daysFrom. assumption.
  - apply getDatesInRange_nil. lia.
Qed.

Lemma getDatesInRange_sorted s e : StronglySorted Z.lt (getDatesInRange s e).
Proof.
  rewrite getDatesInRange_shape.
  destruct (Z_le_gt_dec (startOfUTCDay s) e); [apply daysFrom_sorted | constructor].
Qed.

Lemma getDatesInRange_same_day s e :
  startOfUTCDay s <= e -> dayNumber e = dayNumber s ->
  getDatesInRange s e = [startOfUTCDay s].
Proof.
  intros Hle Hday. rewrite getDatesInRange_daysFrom by assumption.
  rewrite Hday. replace (dayNumber s - dayNumber s + 1) with 1 by lia.
  change (Z.to_nat 1) with 1%nat.
  unfold daysFrom. cbn [seq map]. f_equal. lia.
Qed.

Lemma dayNumber_endOfUTCDay t : dayNumber (endOfUTCDay t) = dayNumber t.
Proof.
  unfold endOfUTCDay. rewrite startOfUTCDay_eq. unfold dayNumber at 1.
  rewrite Z.add_comm, Z.div_add by (pose proof MS_PER_DAY_pos; lia).
  rewrite Z.div_small by (unfold MS_PER_DAY; lia). lia.
Qed.

(** C4, as the code has it.  The expander raises no condition: every call
    returns a sequence in strictly increasing order, which is empty when
    the end date lies before midnight UTC of the start date's day.  For
    start <= end the sequence holds the UTC midnights of the calendar days
    from the start date's day to the end date's day, both included, one
    per day, earliest first.  A single date, and the pair that
    [calculateDateRange] makes of it, give a one-element sequence. *)
Theorem C4_expander_returns_days (startDate endDate : Z) :
  expandRange startDate endDate = Returned (getDatesInRange startDate endDate)
  /\ StronglySorted Z.lt (getDatesInRange startDate endDate)
  /\ (endDate < startOfUTCDay startDate -> getDatesInRange startDate endDate = [])
  /\ (startDate <= endDate ->
      let n := Z.to_nat (dayNumber endDate - dayNumber startDate + 1) in
      getDatesInRange startDate endDate = daysFrom (startOfUTCDay startDate) n
      /\ Z.of_nat n = dayNumber endDate - dayNumber startDate + 1
      /\ head (getDatesInRange startDate endDate) = Some (startOfUTCDay startDate)
      /\ last (getDatesInRange startDate endDate) = Some (startOfUTCDay endDate))
  /\ getDatesInRange startDate startDate = [startOfUTCDay startDate]
  /\ getDatesInRange (fst (calculateDateRange startDate))
       (snd (calculateDateRange startDate)) = [startOfUTCDay startDate].
Proof.
  split; [reflexivity |].
  split; [apply getDatesInRange_sorted |].
  split; [apply getDatesInRange_nil |].
  split; [| split].
  - intros Hle n.
    pose proof (startOfUTCDay_le startDate) as Hs.
    pose proof (dayNumber_mono _ _ Hle) as Hd.
    assert (Hn : n = S (Z.to_nat (dayNumber endDate - dayNumber startDate)))
      by (subst n; lia).
    rewrite getDatesInRange_daysFrom by lia. fold n.
    split; [reflexivity |]. split; [lia |].
    rewrite Hn. split.
    + rewrite daysFrom_cons. reflexivity.
    + rewrite last_daysFrom. f_equal.
      rewrite !startOfUTCDay_eq. lia.
  - apply getDatesInRange_same_day; [apply startOfUTCDay_le | reflexivity].
  - cbn [calculateDateRange fst snd].
    rewrite getDatesInRange_same_day.
    + rewrite startOfUTCDay_idem. reflexivity.
    + rewrite startOfUTCDay_idem. unfold endOfUTCDay, MS_PER_DAY. lia.
    + rewrite dayNumber_endOfUTCDay, dayNumber_startOfUTCDay. reflexivity.
Qed.

(** The three days from 2023-11-14T05:00Z to 2023-11-16T05:00Z; and an end
    date a day before the start date. *)
Lemma C4_expander_returns_days_witness :
  getDatesInRange 1699938000000 1700110800000
  = [1699920000000; 1700006400000; 1700092800000]
  /\ getDatesInRange 86400000 0 = [].
Proof.
  destruct (C4_expander_returns_days 1699938000000 1700110800000)
    as (_ & _ & _ & Hrange & _).
  destruct (C4_expander_returns_days 86400000 0) as (_ & _ & Hempty & _).
  split.
  - destruct (Hrange ltac:(lia)) as (Heq & _).
    rewrite Heq. vm_compute. reflexivity.
  - apply Hempty. vm_compute. reflexivity.
Defined.

(** C4 as stated fails: with the end date a day before the start date the
    call returns the empty sequence, and with the end date earlier on the
    start date's own day it returns that day; no condition is raised. *)
Lemma C4_no_InvalidRange :
  0 < 86400000
  /\ expandRange 86400000 0 = Returned []
  /\ 21600000 < 43200000
  /\ expandRange 43200000 21600000 = Returned [0].
Proof. repeat split. Qed.

End ExpanderClaim.

(** ** Column letters and column numbers *)

Section ColumnsFacts.
Import Columns.

Lemma letterLoop_unfold current letter :
  letterLoop current letter =
  if Z_gt_le_dec current 0
  then letterLoop ((current - (current - 1) mod 26 - 1) / 26)
         (String (fromCharCode ((current - 1) mod 26 + 65)) letter)
  else letter.
Proof.
  rewrite letterLoop_equation_1.
  destruct (Z_gt_le_dec current 0); reflexivity.
Qed.

Lemma charCode_fromCharCode n : 0 <= n < 256 -> charCode (fromCharCode n) = n.
Proof.
  intros Hn. unfold charCode, fromCharCode.
  rewrite N_ascii_embedding by lia. lia.
Qed.

(** One turn of the encoder's loop takes off the last base-26 digit. *)
Lemma letter_step current :
  0 < current ->
  let temp := (current - 1) mod 26 in
  let next := (current - temp - 1) / 26 in
  0 <= temp < 26 /\ 0 <= next < current /\ next * 26 + (temp + 65 - 64) = current.
Proof.
  intros Hpos temp next.
  pose proof (Z.mod_pos_bound (current - 1) 26 eq_refl) as Hm.
  pose proof (Z.div_mod (current - 1) 26 ltac:(lia)) as Hdm.
  assert (Hnext : next = (current - 1) / 26).
  { subst next temp.
    replace (current - (current - 1) mod 26 - 1) with ((current - 1) / 26 * 26) by lia.
    apply Z.div_mul. lia. }
  assert (0 <= (current - 1) / 26) by (apply Z.div_pos; lia).
  subst temp. lia.
Qed.

(** Parsing what the encoder built on top of [letter] is parsing [letter]
    with the encoded number as the starting value. *)
Lemma colToNumLoop_letterLoop current :
  0 <= current ->
  forall letter,
    colToNumLoop (letterLoop current letter) 0 = colToNumLoop letter current.
Proof.
  intros Hcur. generalize Hcur. pattern current.
  apply Z_lt_induction; [| assumption].
  clear current Hcur. intros current IH Hcur letter.
  rewrite letterLoop_unfold.
  destruct (Z_gt_le_dec current 0) as [Hgt|Hle].
  - destruct (letter_step current ltac:(lia)) as (Htemp & Hnext & Heq).
    rewrite IH by lia. cbn [colToNumLoop].
    rewrite charCode_fromCharCode by lia. f_equal. exact Heq.
  - replace current with 0 by lia. reflexivity.
Qed.

End ColumnsFacts.

Section ColumnsClaim.
Import Columns.



End ColumnsClaim.

(** ** The matrix builder *)

Section MatrixFacts.
Import Dates Model Report.

Variable formatDate : Z -> string.

Abbreviation keyOf := (fun r : IFeederReading => formatDate (reading_date r)).

(** Setting the readings one after the other on a map [m]. *)
Lemma fold_set_Some (readings : list IFeederReading) :
  forall (m : gmap string IFeederReading) k r,
    fold_left (fun m r => <[keyOf r := r]> m) readings m !! k = Some r ->
    (r ∈ readings /\ keyOf r = k) \/ m !! k = Some r.
Proof.
  induction readings as [|r0 rest IH]; intros m k r Hk; cbn in Hk.
  - right. assumption.
  - destruct (IH _ _ _ Hk) as [[Hin Hkey]|Hm].
    + left. split; [apply elem_of_cons; right; exact Hin | assumption].
    + destruct (decide (formatDate (reading_date r0) = k)) as [Heq|Hne].
      * rewrite <- Heq, lookup_insert_eq in Hm. injection Hm as <-.
        left. split; [apply elem_of_cons; left; reflexivity | assumption].
      * rewrite lookup_insert_ne in Hm by assumption. right. assumption.
Qed.

Lemma fold_set_None (readings : list IFeederReading) :
  forall (m : gmap string IFeederReading) k,
    fold_left (fun m r => <[keyOf r := r]> m) readings m !! k = None ->
    (forall r, r ∈ readings -> keyOf r <> k) /\ m !! k = None.
Proof.
  induction readings as [|r0 rest IH]; intros m k Hk; cbn in Hk.
  - split; [intros r Hr; apply elem_of_nil in Hr; contradiction | assumption].
  - destruct (IH _ _ Hk) as [Hrest Hm].
    destruct (decide (formatDate (reading_date r0) = k)) as [Heq|Hne].
    + rewrite <- Heq, lookup_insert_eq in Hm. discriminate.
    + rewrite lookup_insert_ne in Hm by assumption. split; [| assumption].
      intros r Hr. apply elem_of_cons in Hr. destruct Hr as [->|Hr];
        [assumption | apply Hrest, Hr].
Qed.

(** A reading found under a key is one of the feeder's readings, dated
    with that key; none is found only when no reading has the key. *)
Lemma readingMapOf_Some readings k r :
  readingMapOf formatDate readings !! k = Some r ->
  r ∈ readings /\ formatDate (reading_date r) = k.
Proof.
  intros Hk. destruct (fold_set_Some readings ∅ k r Hk) as [H|H];
    [assumption | rewrite lookup_empty in H; discriminate].
Qed.

Lemma readingMapOf_None readings k :
  readingMapOf formatDate readings !! k = None ->
  forall r, r ∈ readings -> formatDate (reading_date r) <> k.
Proof. intros Hk. apply (fold_set_None readings ∅ k Hk). Qed.

Lemma dateLoop_lookup feeder readingMap :
  forall dates i dateColIndex prev k d,
    dates !! k = Some d ->
    exists row,
      dateLoop formatDate feeder readingMap dates i dateColIndex prev !! k = Some row
      /\ dc_col row = dateColIndex + 4 * Z.of_nat k
      /\ nomination row
         = (dailyEnergyUptake feeder * numOfZ (Z.of_nat (i + k) + 1))%float
      /\ match readingMap !! formatDate d with
         | Some r => actual row = cumulativeEnergyConsumption r
         | None =>
             carriedFrom
               (dateLoop formatDate feeder readingMap dates i dateColIndex prev)
               k prev (actual row)
         end
      /\ variance row = (actual row - nomination row)%float.
Proof.
  induction dates as [|d0 rest IH]; intros i col prev k d Hk; [discriminate |].
  destruct k as [|k]; cbn [dateLoop].
  - injection Hk as ->. eexists. split; [reflexivity |]. cbn.
    split; [lia |]. split; [rewrite Nat.add_0_r; reflexivity |].
    split; [| reflexivity].
    destruct (readingMap !! formatDate d); reflexivity.
  - cbn in Hk.
    destruct (IH (S i) (col + 4)
                (match readingMap !! formatDate d0 with
                 | Some r => cumulativeEnergyConsumption r
                 | None => prev
                 end) k d Hk) as (row & Hrow & Hcol & Hnom & Hact & Hvar).
    exists row. split; [exact Hrow |]. split; [lia |].
    split; [rewrite Hnom, Nat.add_succ_comm; reflexivity |].
    split; [| exact Hvar].
    destruct (readingMap !! formatDate d) as [r|]; [exact Hact |].
    destruct k as [|k]; cbn in Hact |- *.
    + eexists. split; [reflexivity |]. exact Hact.
    + exact Hact.
Qed.

Lemma dateLoop_no_reading feeder readingMap :
  forall dates i dateColIndex prev row,
    (forall d, d ∈ dates -> readingMap !! formatDate d = None) ->
    row ∈ dateLoop formatDate feeder readingMap dates i dateColIndex prev ->
    actual row = prev.
Proof.
  induction dates as [|d0 rest IH]; intros i col prev row Hnone Hrow;
    cbn [dateLoop] in Hrow; [apply elem_of_nil in Hrow; contradiction |].
  rewrite (Hnone d0 (proj2 (elem_of_cons _ _ _) (or_introl eq_refl))) in Hrow.
  apply elem_of_cons in Hrow. destruct Hrow as [->|Hrow]; [reflexivity |].
  apply (IH _ _ _ _ (fun d Hd => Hnone d (proj2 (elem_of_cons _ _ _) (or_intror Hd))) Hrow).
Qed.

Lemma length_dateLoop feeder readingMap :
  forall dates i dateColIndex prev,
    length (dateLoop formatDate feeder readingMap dates i dateColIndex prev)
    = length dates.
Proof.
  induction dates as [|d0 rest IH]; intros; cbn [dateLoop length];
    [reflexivity | rewrite IH; reflexivity].
Qed.

End MatrixFacts.

Section MatrixClaim.
Import Dates Model Report.

Variable formatDate : Z -> string.

(** C1: for every feeder and every day, at place i counted from 1 (index
    i - 1 below), the matrix builder, started as [populateFeederData]
    starts it, gives nomination = dailyEnergyUptake * i; actual = the
    value of a reading of the feeder dated that day when there is one (the
    one kept in the reading map), otherwise the actual of the day before,
    and 0 on the first day; variance = actual - nomination.  A feeder with
    no reading dated any day of the range has actual = 0 on every day. *)
Theorem C1_matrix_builder (feeder : PopulatedFeeder)
    (readings : list IFeederReading) (dates : list Z) (i : nat) (d : Z) :
  dates !! i = Some d ->
  let readingMap := readingMapOf formatDate readings in
  let rows := populateDateSpecificData formatDate feeder dates readingMap 0%float in
  exists row,
    rows !! i = Some row
    /\ nomination row
       = (dailyEnergyUptake feeder * numOfZ (Z.of_nat i + 1))%float
    /\ ((exists r, r ∈ readings
                   /\ formatDate (reading_date r) = formatDate d
                   /\ readingMap !! formatDate d = Some r
                   /\ actual row = cumulativeEnergyConsumption r)
        \/ ((forall r, r ∈ readings ->
                       formatDate (reading_date r) <> formatDate d)
            /\ carriedFrom rows i 0%float (actual row)))
    /\ variance row = (actual row - nomination row)%float
    /\ ((forall r d', r ∈ readings -> d' ∈ dates ->
                      formatDate (reading_date r) <> formatDate d') ->
        actual row = 0%float).
Proof.
  intros Hd readingMap rows.
  destruct (dateLoop_lookup formatDate feeder readingMap dates 0 9 0%float i d Hd)
    as (row & Hrow & _ & Hnom & Hact & Hvar).
  exists row. split; [exact Hrow |]. split; [exact Hnom |].
  split; [| split; [exact Hvar |]].
  - destruct (readingMap !! formatDate d) as [r|] eqn:Hlook.
    + left. exists r.
      destruct (readingMapOf_Some formatDate readings _ _ Hlook) as [Hin Hkey].
      repeat split; assumption.
    + right. split; [| exact Hact].
      apply (readingMapOf_None formatDate readings _ Hlook).
  - intros Hnone.
    apply (dateLoop_no_reading formatDate feeder readingMap dates 0 9 0%float).
    + intros d' Hd'.
      destruct (readingMap !! formatDate d') as [r|] eqn:Hlook; [| reflexivity].
      destruct (readingMapOf_Some formatDate readings _ _ Hlook) as [Hin Hkey].
      destruct (Hnone r d' Hin Hd' Hkey).
    + apply list_elem_of_lookup. exists i. exact Hrow.
Qed.

End MatrixClaim.

Section MatrixRuns.
Import Dates Model Report Scenario.

(** Scenario D of the spec, with a daily uptake of 30: the second day has
    no reading and shows the 100 of the first day.  And a feeder whose
    only reading is dated after the range: 0 on the second day. *)
Lemma C1_matrix_builder_witness :
  (exists row,
     populateDateSpecificData dayKey (feederWith 30%float) [day1; day2; day3]
       (readingMapOf dayKey gapReadings) 0%float !! 1%nat = Some row
     /\ nomination row = 60%float
     /\ actual row = 100%float
     /\ variance row = 40%float)
  /\ (exists row,
        populateDateSpecificData dayKey (feederWith 30%float) [day1; day2]
          (readingMapOf dayKey [readingOn day3 90%float]) 0%float !! 1%nat
        = Some row
        /\ actual row = 0%float).
Proof.
  split.
  - destruct (C1_matrix_builder dayKey (feederWith 30%float) gapReadings
                [day1; day2; day3] 1 day2 eq_refl)
      as (row & Hrow & _).
    exists row. split; [exact Hrow |].
    vm_compute in Hrow. injection Hrow as <-.
    repeat split.
  - destruct (C1_matrix_builder dayKey (feederWith 30%float)
                [readingOn day3 90%float] [day1; day2] 1 day2 eq_refl)
      as (row & Hrow & _ & _ & _ & Hnone).
    exists row. split; [exact Hrow |].
    apply Hnone. intros r d' Hr Hd'.
    apply list_elem_of_singleton in Hr. subst r.
    apply elem_of_cons in Hd'. destruct Hd' as [->|Hd'];
      [vm_compute; discriminate |].
    apply list_elem_of_singleton in Hd'. subst d'.
    vm_compute. discriminate.
Defined.

End MatrixRuns.

(** ** The compliance checks *)

Section ChecksFacts.
Import Dates Model Report.


(** The three groups of checks push at most one label each. *)
Lemma declineCheck_cases dayIndex actual previousDayActual :
  declineCheck dayIndex actual previousDayActual = []
  \/ declineCheck dayIndex actual previousDayActual = [DECLINE].
Proof.
  unfold declineCheck.
  destruct ((1 <? dayIndex) && (actual <=? previousDayActual)%float); auto.
Qed.

Lemma nominationCheck_cases actual nomination :
  nominationCheck actual nomination = []
  \/ nominationCheck actual nomination = [NOM_LOW]
  \/ nominationCheck actual nomination = [NOM_HIGH].
Proof.
  unfold nominationCheck.
  destruct (actual <? LOW_FACTOR * nomination)%float; auto.
  destruct (HIGH_FACTOR * nomination <? actual)%float; auto.
Qed.

Lemma dailyUptakeCheck_cases dayIndex actual previousDayActual dailyUptake :
  dailyUptakeCheck dayIndex actual previousDayActual dailyUptake = []
  \/ dailyUptakeCheck dayIndex actual previousDayActual dailyUptake = [UPTAKE_LOW]
  \/ dailyUptakeCheck dayIndex actual previousDayActual dailyUptake = [UPTAKE_HIGH].
Proof.
  unfold dailyUptakeCheck.
  destruct (1 <? dayIndex); auto.
  destruct (actual - previousDayActual <? LOW_FACTOR * dailyUptake)%float; auto.
  destruct (HIGH_FACTOR * dailyUptake <? actual - previousDayActual)%float; auto.
Qed.

Lemma checks_in_checkLists dayIndex actual previousDayActual nomination dailyUptake :
  declineCheck dayIndex actual previousDayActual
  ++ nominationCheck actual nomination
  ++ dailyUptakeCheck dayIndex actual previousDayActual dailyUptake
  ∈ checkLists.
Proof.
  destruct (declineCheck_cases dayIndex actual previousDayActual) as [->| ->];
  destruct (nominationCheck_cases actual nomination) as [->|[->| ->]];
  destruct (dailyUptakeCheck_cases dayIndex actual previousDayActual dailyUptake)
    as [->|[->| ->]];
  apply (bool_decide_unpack _); vm_compute; exact I.
Qed.

Lemma checkLists_exclusive l : l ∈ checkLists -> exclusive l.
Proof.
  revert l. apply Forall_forall.
  apply (bool_decide_unpack _). vm_compute. exact I.
Qed.


End ChecksFacts.

Section ChecksClaims.
Import Dates Model Report.

Variable formatDate : Z -> string.

Lemma nil_in_checkLists : [] ∈ checkLists.
Proof. apply (bool_decide_unpack _). vm_compute. exact I. Qed.

Lemma complianceChecksOn_in_checkLists feeder readingMap lastDate dayIndex prevActual :
  complianceChecksOn formatDate feeder readingMap lastDate dayIndex prevActual
  ∈ checkLists.
Proof.
  unfold complianceChecksOn.
  destruct (readingMap !! formatDate lastDate) as [lastReading|];
    [| apply nil_in_checkLists].
  destruct (cumulativeEnergyConsumption lastReading <=? 0)%float;
    [apply nil_in_checkLists | apply checks_in_checkLists].
Qed.

Lemma failedChecksOf_in_checkLists feeder readings dates lastDateStr lastReading :
  Analysis.failedChecksOf formatDate feeder readings dates lastDateStr lastReading
  ∈ checkLists.
Proof. unfold Analysis.failedChecksOf. apply checks_in_checkLists. Qed.

(** The entries a feeder adds to the router's summary carry the list of
    failed checks built for it. *)
Lemma routeFeeder_entries regionName feeder readings dates row entry :
  entry ∈ snd (Analysis.routeFeeder formatDate regionName feeder readings dates row) ->
  exists lastDateStr lastReading,
    Analysis.lastDateStrOf formatDate readings = Some lastDateStr
    /\ Analysis.lastReadingOf formatDate readings = Some lastReading
    /\ (0 <? cumulativeEnergyConsumption lastReading)%float = true
    /\ fc_failedChecks entry
       = Analysis.failedChecksOf formatDate feeder readings dates lastDateStr lastReading
    /\ fc_failedChecks entry <> []
    /\ fc_date entry = lastDateStr.
Proof.
  unfold Analysis.routeFeeder.
  destruct (Analysis.lastDateStrOf formatDate readings) as [lastDateStr|];
    [| intros H; apply elem_of_nil in H; contradiction].
  destruct (Analysis.lastReadingOf formatDate readings) as [lastReading|];
    [| intros H; apply elem_of_nil in H; contradiction].
  destruct (0 <? cumulativeEnergyConsumption lastReading)%float eqn:Hpos;
    [| intros H; apply elem_of_nil in H; contradiction].
  cbn [snd].
  destruct (Analysis.failedChecksOf formatDate feeder readings dates
              lastDateStr lastReading) as [|label labels] eqn:Hchecks;
    cbn [length Nat.eqb]; intros H;
    [apply elem_of_nil in H; contradiction |].
  apply list_elem_of_singleton in H. subst entry. cbn.
  exists lastDateStr, lastReading. repeat split; auto; discriminate.
Qed.

(** C7: on every run of the classifier, in the report controller and in
    [addAnalysisSheetsToWorkbook], the list of failed checks never holds
    both '< 70% Nom' and '> 130% Nom', never both '< 70% Daily Uptake' and
    '> 130% Daily Uptake', and holds no label twice.  (The controller's
    run gives no list only when there is no date at all.) *)
Theorem C7_rule_pairs_exclusive (feeder : PopulatedFeeder)
    (readingMap : gmap string IFeederReading) (dates : list Z)
    (prevActual : float) (readings : list IFeederReading)
    (regionName : string) (row : Z) :
  match runComplianceChecks formatDate feeder readingMap dates prevActual with
  | Some failedChecks => exclusive failedChecks
  | None => dates = []
  end
  /\ (forall lastDateStr lastReading,
        exclusive (Analysis.failedChecksOf formatDate feeder readings dates
                     lastDateStr lastReading))
  /\ Forall (fun entry => exclusive (fc_failedChecks entry))
       (snd (Analysis.routeFeeder formatDate regionName feeder readings dates row)).
Proof.
  split; [| split].
  - unfold runComplianceChecks.
    destruct (last dates) as [lastDate|] eqn:Hlast.
    + apply checkLists_exclusive, complianceChecksOn_in_checkLists.
    + apply last_None. exact Hlast.
  - intros lastDateStr lastReading.
    apply checkLists_exclusive, failedChecksOf_in_checkLists.
  - apply Forall_forall. intros entry Hentry.
    destruct (routeFeeder_entries _ _ _ _ _ _ Hentry)
      as (lastDateStr & lastReading & _ & _ & _ & -> & _).
    apply checkLists_exclusive, failedChecksOf_in_checkLists.
Qed.

End ChecksClaims.

(** ** The data-sufficiency guard *)

Section GuardClaim.
Import Dates Model.

Variable formatDate : Z -> string.




End GuardClaim.

Section GuardRuns.
Import Dates Model Scenario.


End GuardRuns.

(** ** Category routing and the summary of failed checks *)

Section RoutingFacts.
Import Dates Model.

Variable formatDate : Z -> string.

Lemma routerVerdict_in_checkLists feeder readings dates failedChecks :
  routerVerdict formatDate feeder readings dates = Some failedChecks ->
  failedChecks ∈ checkLists.
Proof.
  unfold routerVerdict.
  destruct (Analysis.lastDateStrOf formatDate readings); [| discriminate].
  destruct (Analysis.lastReadingOf formatDate readings); [| discriminate].
  destruct (0 <? _)%float; [| discriminate].
  intros [= <-]. apply failedChecksOf_in_checkLists.
Qed.


(** The copies and the entries of one feeder, by its verdict. *)
Lemma routeFeeder_by_verdict regionName feeder readings dates row :
  Analysis.routeFeeder formatDate regionName feeder readings dates row
  = match routerVerdict formatDate feeder readings dates with
    | None => ([], [])
    | Some failedChecks =>
        (map (fun label => (label, row)) failedChecks
         ++ (if (0 <=? match Analysis.lastReadingOf formatDate readings,
                             Analysis.lastDateStrOf formatDate readings with
                       | Some lastReading, Some lastDateStr =>
                           cumulativeEnergyConsumption lastReading
                           - dailyEnergyUptake feeder
                             * numOfZ (Analysis.dayIndexOf formatDate dates lastDateStr)
                       | _, _ => 0
                       end)%float
             then [(POSITIVE_VARIANCE, row)] else [])
         ++ (if (length failedChecks =? 0)%nat then [(NO_FLAGS, row)] else []),
         if (length failedChecks =? 0)%nat then []
         else [{| fc_feederName := feeder_name feeder;
                  fc_businessHub := objectName (businessHub feeder);
                  fc_region := regionName;
                  fc_date := default "" (Analysis.lastDateStrOf formatDate readings);
                  fc_failedChecks := failedChecks |}])
    end.
Proof.
  unfold Analysis.routeFeeder, routerVerdict.
  destruct (Analysis.lastDateStrOf formatDate readings); [| reflexivity].
  destruct (Analysis.lastReadingOf formatDate readings); [| reflexivity].
  destruct (0 <? _)%float; reflexivity.
Qed.






End RoutingFacts.

Section SummaryFacts.
Import Dates Model.

Variable formatDate : Z -> string.

Lemma complianceEntries_total includeCompliance regionName feeder readingMap dates prevActual :
  dates <> [] ->
  is_Some (Report.complianceEntries formatDate includeCompliance regionName
             feeder readingMap dates prevActual).
Proof.
  intros Hdates. unfold Report.complianceEntries, Report.runComplianceChecks.
  destruct includeCompliance; [| eexists; reflexivity].
  destruct (last dates) as [lastDate|] eqn:Hlast.
  - destruct (0 <? length _)%nat; eexists; reflexivity.
  - apply last_None in Hlast. contradiction.
Qed.

(** What a feeder adds to the controller's summary, by its list of failed
    checks. *)
Lemma controllerEntries_by_checks dates readingsByFeeder regionName feeder :
  controllerEntries formatDate true dates readingsByFeeder regionName feeder
  = match last dates,
          Report.runComplianceChecks formatDate feeder
            (Report.readingMapOf formatDate
               (default [] (readingsByFeeder !! feeder_id feeder)))
            dates 0%float with
    | Some lastDate, Some (label :: labels) =>
        [{| fc_feederName := feeder_name feeder;
            fc_businessHub := refName (businessHub feeder);
            fc_region := regionName;
            fc_date := formatDate lastDate;
            fc_failedChecks := label :: labels |}]
    | _, _ => []
    end.
Proof.
  unfold controllerEntries, Report.complianceEntries.
  destruct (last dates) as [lastDate|]; [| reflexivity].
  destruct (Report.runComplianceChecks _ _ _ _ _) as [[|label labels]|];
    reflexivity.
Qed.

Lemma controller_feederStep_summary includeCompliance dates readingsByFeeder
    regionName st feeder st' :
  Report.feederStep formatDate includeCompliance dates readingsByFeeder
    regionName st feeder = Some st' ->
  Report.failedChecksSummary st'
  = Report.failedChecksSummary st
    ++ controllerEntries formatDate includeCompliance dates readingsByFeeder
         regionName feeder.
Proof.
  unfold Report.feederStep, controllerEntries.
  destruct (Report.complianceEntries _ _ _ _ _ _ _) as [entries|];
    [| discriminate].
  intros [= <-]. reflexivity.
Qed.

Lemma controller_feeders_summary includeCompliance dates readingsByFeeder
    regionName feeders :
  forall st st',
    Report.feedersLoop formatDate includeCompliance dates readingsByFeeder
      regionName feeders st = Some st' ->
    Report.failedChecksSummary st'
    = Report.failedChecksSummary st
      ++ flat_map (controllerEntries formatDate includeCompliance dates
                     readingsByFeeder regionName) feeders.
Proof.
  induction feeders as [|f rest IH]; intros st st';
    cbn [Report.feedersLoop flat_map].
  - intros [= <-]. rewrite app_nil_r. reflexivity.
  - destruct (Report.feederStep _ _ _ _ _ st f) as [st1|] eqn:Hstep;
      [| discriminate].
    intros Hrest. rewrite (IH _ _ Hrest).
    rewrite (controller_feederStep_summary _ _ _ _ _ _ _ Hstep), <- app_assoc.
    reflexivity.
Qed.

Lemma controller_regions_summary includeCompliance dates readingsByFeeder groups :
  forall st st',
    Report.regionsLoop formatDate includeCompliance dates readingsByFeeder
      groups st = Some st' ->
    Report.failedChecksSummary st'
    = Report.failedChecksSummary st
      ++ flat_map
           (fun group =>
              flat_map (controllerEntries formatDate includeCompliance dates
                          readingsByFeeder (fst group)) (snd group))
           groups.
Proof.
  induction groups as [|[regionName regionFeeders] rest IH]; intros st st';
    cbn [Report.regionsLoop flat_map fst snd].
  - intros [= <-]. rewrite app_nil_r. reflexivity.
  - destruct (Report.feedersLoop _ _ _ _ _ regionFeeders _) as [st1|] eqn:Hloop;
      [| discriminate].
    intros Hrest. rewrite (IH _ _ Hrest).
    rewrite (controller_feeders_summary _ _ _ _ _ _ _ Hloop), <- app_assoc.
    reflexivity.
Qed.

Lemma controller_feeders_total includeCompliance dates readingsByFeeder
    regionName feeders :
  dates <> [] ->
  forall st,
    is_Some (Report.feedersLoop formatDate includeCompliance dates
               readingsByFeeder regionName feeders st).
Proof.
  intros Hdates. induction feeders as [|f rest IH]; intros st;
    cbn [Report.feedersLoop]; [eexists; reflexivity |].
  unfold Report.feederStep.
  destruct (complianceEntries_total includeCompliance regionName f
              (Report.readingMapOf formatDate
                 (default [] (readingsByFeeder !! feeder_id f)))
              dates 0%float Hdates) as [entries ->].
  apply IH.
Qed.

Lemma controller_regions_total includeCompliance dates readingsByFeeder groups :
  dates <> [] ->
  forall st,
    is_Some (Report.regionsLoop formatDate includeCompliance dates
               readingsByFeeder groups st).
Proof.
  intros Hdates.
  induction groups as [|[regionName regionFeeders] rest IH]; intros st;
    cbn [Report.regionsLoop]; [eexists; reflexivity |].
  destruct (controller_feeders_total includeCompliance dates readingsByFeeder
              regionName regionFeeders Hdates
              {| Report.rowIndex := Report.rowIndex st + 1;
                 Report.feederSerial := Report.feederSerial st;
                 Report.sheet :=
                   Report.sheet st ++ [Report.RegionBanner (Report.rowIndex st) regionName];
                 Report.failedChecksSummary := Report.failedChecksSummary st |})
    as [st1 ->].
  apply IH.
Qed.

(** Grouping by region loses no feeder and repeats none. *)
Lemma groupInsert_Permutation regionName feeder groups :
  concat (map snd (Report.groupInsert regionName feeder groups))
  ≡ₚ feeder :: concat (map snd groups).
Proof.
  induction groups as [|[k fs] rest IH]; cbn [Report.groupInsert map concat snd].
  - reflexivity.
  - destruct (String.eqb k regionName); cbn [map concat snd].
    + rewrite <- app_assoc. cbn [app].
      symmetry. apply Permutation_middle.
    + rewrite IH. symmetry. apply Permutation_middle.
Qed.

Lemma feedersByRegion_Permutation feeders :
  concat (map snd (Report.feedersByRegion feeders)) ≡ₚ feeders.
Proof.
  unfold Report.feedersByRegion.
  assert (Hgen : forall groups,
             concat (map snd
                       (fold_left
                          (fun groups f =>
                             Report.groupInsert (refName (region f)) f groups)
                          feeders groups))
             ≡ₚ concat (map snd groups) ++ feeders).
  { induction feeders as [|f rest IH]; intros groups; cbn [fold_left].
    - rewrite app_nil_r. reflexivity.
    - rewrite IH, groupInsert_Permutation. cbn [app].
      apply Permutation_middle. }
  apply Hgen.
Qed.


End SummaryFacts.

Section RoutingClaim.
Import Dates Model.

Variable formatDate : Z -> string.




End RoutingClaim.

Section RoutingRuns.
Import Dates Model Scenario.


End RoutingRuns.

(** ** The previous day's actual and the classified day *)

Section ClassifierRuns.
Import Dates Model Scenario.

(** C2 fails on the code, in both files.  Range of three days, daily
    uptake 30, readings of 100 on the first day and 90 on the third.  The
    matrix shows 100 on the second day, carried forward.  The classifier
    takes 0 for the previous day since that day has no reading: it sees a
    rise of 90 and flags '> 130% Daily Uptake' only.  With the carried 100
    the same tests flag the decline and '< 70% Daily Uptake'. *)
Theorem C2_previous_actual_is_zero_not_carried :
  let feeder := feederWith 30%float in
  let dates := [day1; day2; day3] in
  let readingMap := Report.readingMapOf dayKey gapReadings in
  Report.actual
    <$> Report.populateDateSpecificData dayKey feeder dates readingMap 0%float !! 1%nat
  = Some 100%float
  /\ Report.previousDayActualOf dayKey readingMap day3 3 0%float = 0%float
  /\ Report.runComplianceChecks dayKey feeder readingMap dates 0%float
     = Some [UPTAKE_HIGH]
  /\ Analysis.previousDayActualOf dayKey gapReadings (readingOn day3 90%float)
     = 0%float
  /\ Analysis.routeFeeder dayKey "Region 1" feeder gapReadings dates 6
     = ([(UPTAKE_HIGH, 6); (POSITIVE_VARIANCE, 6)],
        [{| fc_feederName := "Feeder 1";
            fc_businessHub := "Hub 1";
            fc_region := "Region 1";
            fc_date := dayKey day3;
            fc_failedChecks := [UPTAKE_HIGH] |}])
  /\ Report.declineCheck 3 90%float 100%float
     ++ Report.nominationCheck 90%float 90%float
     ++ Report.dailyUptakeCheck 3 90%float 100%float 30%float
     = [DECLINE; UPTAKE_LOW].
Proof. vm_compute. repeat split. Qed.

(** C3 fails on [addAnalysisSheetsToWorkbook].  Range of two days, daily
    uptake 100, one reading of 100 on the first day.  The router takes the
    day of the last reading, the first day: day index 1, nomination 100,
    and the row goes to 'Positive Variance' and 'No Flags'.  The report
    controller takes the last day of the range, finds no reading there and
    classifies nothing. *)
Theorem C3_router_classifies_last_reading_day :
  let feeder := feederWith 100%float in
  let dates := [day1; day2] in
  last dates = Some day2
  /\ Analysis.lastDateStrOf dayKey firstDayOnly = Some (dayKey day1)
  /\ Analysis.dayIndexOf dayKey dates (dayKey day1) = 1
  /\ Analysis.routeFeeder dayKey "Region 1" feeder firstDayOnly dates 6
     = ([(POSITIVE_VARIANCE, 6); (NO_FLAGS, 6)], [])
  /\ Report.runComplianceChecks dayKey feeder
       (Report.readingMapOf dayKey firstDayOnly) dates 0%float = Some [].
Proof. vm_compute. repeat split. Qed.

End ClassifierRuns.

(** ** Name filters that do not resolve *)

Section HandlerFacts.
Import Dates Model Handlers.

Variable findRegion : string -> option string.
Variable findHub : string -> option string.
Variable findFeeders : FeederFilter -> list PopulatedFeeder.

(** [generateSpecificDateReport] ends with 404 on a region name that does
    not resolve, before any fetch. *)
Lemma strict_unresolved_region (q : DateQuery) reportDate name :
  q_date q = Some (Some reportDate) ->
  given (q_region q) = Some name ->
  findRegion name = None ->
  generateSpecificDateReport findRegion findHub findFeeders q
  = [Reply 404 ("Region '" ++ name ++ "' not found")].
Proof.
  intros Hdate Hregion Hfind.
  unfold generateSpecificDateReport, strictFilter.
  rewrite Hdate, Hregion, Hfind. reflexivity.
Qed.

(** The filter of the two other handlers forgets a region name that does
    not resolve. *)
Lemma lenient_unresolved_region region businessHub name :
  given region = Some name ->
  findRegion name = None ->
  filter_region (lenientFilter findRegion findHub region businessHub) = None.
Proof.
  intros Hregion Hfind. unfold lenientFilter. cbn.
  rewrite Hregion. exact Hfind.
Qed.

End HandlerFacts.

Section HandlerRuns.
Import Dates Model Scenario Handlers.

(** C8 fails on [sendReportByEmail] and [generateCustomReport].  With the
    region 'Atlantis', which the directory does not hold, both fetch the
    feeders with an empty filter, fetch the readings and deliver a report
    on every feeder; neither reports a not-found condition.
    [generateSpecificDateReport] replies 404 and fetches nothing. *)
Theorem C8_unresolved_filter_is_dropped :
  oneRegion "Atlantis" = None
  /\ sendReportByEmail oneRegion oneHub twoFeeders atlantisByEmail
     = [FetchFeeders noFilter;
        FetchReadings day1 day2;
        PopulateFeederData [feederWith 100%float; feederWith 30%float]
          [day1; day2] true;
        SendEmail "ops@example.com";
        Reply 200 "Report sent successfully!"]
  /\ generateCustomReport oneRegion oneHub twoFeeders atlantisCustom
     = [FetchFeeders noFilter;
        FetchReadings day1 day2;
        PopulateFeederData [feederWith 100%float; feederWith 30%float]
          [day1; day2] true;
        WriteFile]
  /\ repliesNotFound
       (sendReportByEmail oneRegion oneHub twoFeeders atlantisByEmail) = false
  /\ repliesNotFound
       (generateCustomReport oneRegion oneHub twoFeeders atlantisCustom) = false
  /\ generateSpecificDateReport oneRegion oneHub twoFeeders atlantisOnDate
     = [Reply 404 "Region 'Atlantis' not found"]
  /\ fetchesReadings
       (generateSpecificDateReport oneRegion oneHub twoFeeders atlantisOnDate)
     = false.
Proof. vm_compute. repeat split. Qed.

End HandlerRuns.

(** ** The cache of range readings *)

Section CacheFacts.
Import Model Cache.

Variable toISOString : Z -> string.

(** Every state the cache can be in is empty or holds one entry. *)
Lemma reachable_shape st :
  reachable toISOString st ->
  readingsCache st = ∅
  \/ exists cacheKey readings, readingsCache st = {[ cacheKey := readings ]}.
Proof.
  intros Hst. destruct Hst as [|st startDate endDate now fetched _].
  - left. reflexivity.
  - right. eexists _, _. cbn. apply insert_empty.
Qed.

Lemma reachable_size st :
  reachable toISOString st -> (size (readingsCache st) <= 1)%nat.
Proof.
  intros Hst. destruct (reachable_shape st Hst) as [->|(k & rs & ->)].
  - rewrite map_size_empty. lia.
  - rewrite map_size_singleton. lia.
Qed.

(** A hit gives the stored readings, under the asked key, while fresh. *)
Lemma cached_Some st cacheKey now readings :
  cached st cacheKey now = Some readings <->
  readingsCache st !! cacheKey = Some readings
  /\ now - cacheTimestamp st < CACHE_TTL.
Proof.
  unfold cached.
  destruct (readingsCache st !! cacheKey) as [stored|].
  - destruct (Z.ltb_spec (now - cacheTimestamp st) CACHE_TTL); split.
    + intros [= ->]. split; [reflexivity | assumption].
    + intros [[= ->] _]. reflexivity.
    + discriminate.
    + intros [_ Hlt]. lia.
  - split; [discriminate | intros [[=] _]].
Qed.

Lemma cached_None st cacheKey now :
  cached st cacheKey now = None <->
  readingsCache st !! cacheKey = None
  \/ CACHE_TTL <= now - cacheTimestamp st.
Proof.
  unfold cached.
  destruct (readingsCache st !! cacheKey) as [stored|].
  - destruct (Z.ltb_spec (now - cacheTimestamp st) CACHE_TTL); split.
    + discriminate.
    + intros [[=]|Hge]. lia.
    + intros _. right. assumption.
    + reflexivity.
  - split; [intros _; left; reflexivity | reflexivity].
Qed.

(** C9.  In every state the cache can reach, also with overlapping calls,
    it holds at most one entry.  After a call of [getAllReadingsInRange]
    it holds exactly one entry, under the key of the asked pair of dates.
    The call returns cached readings only when the asked key is the stored
    key and the stamp is less than the time-to-live old; otherwise it
    returns the fetched readings and replaces the entry. *)
Theorem C9_single_entry_cache (st : CacheState)
    (startDate endDate now : Z) (fetched : list IFeederReading) :
  reachable toISOString st ->
  let cacheKey := cacheKeyOf toISOString startDate endDate in
  let call := getAllReadingsInRange toISOString st startDate endDate now fetched in
  (size (readingsCache st) <= 1)%nat
  /\ reachable toISOString (snd call)
  /\ (exists readings, readingsCache (snd call) = {[ cacheKey := readings ]})
  /\ size (readingsCache (snd call)) = 1%nat
  /\ ((readingsCache st !! cacheKey = Some (fst call)
       /\ now - cacheTimestamp st < CACHE_TTL
       /\ snd call = st)
      \/ ((readingsCache st !! cacheKey = None
           \/ CACHE_TTL <= now - cacheTimestamp st)
          /\ fst call = fetched
          /\ snd call = update st cacheKey now fetched)).
Proof.
  intros Hst cacheKey call.
  split; [apply reachable_size, Hst |].
  subst call. unfold getAllReadingsInRange. fold cacheKey.
  destruct (cached st cacheKey now) as [readings|] eqn:Hc; cbn [fst snd].
  - apply cached_Some in Hc. destruct Hc as [Hlook Hfresh].
    assert (Hone : readingsCache st = {[ cacheKey := readings ]}).
    { destruct (reachable_shape st Hst) as [Hempty|(k & rs & Hsingle)].
      - rewrite Hempty, lookup_empty in Hlook. discriminate.
      - rewrite Hsingle in Hlook |- *.
        apply lookup_singleton_Some in Hlook. destruct Hlook as [-> ->].
        reflexivity. }
    split; [exact Hst |]. split; [exists readings; exact Hone |].
    split; [rewrite Hone; apply map_size_singleton |].
    left. repeat split; assumption.
  - apply cached_None in Hc.
    split; [apply reachable_update, Hst |].
    split; [exists fetched; apply insert_empty |].
    split; [cbn; rewrite insert_empty; apply map_size_singleton |].
    right. repeat split. exact Hc.
Qed.

End CacheFacts.

Section CacheRuns.
Import Model Cache Scenario.

(** A first call stores what it fetched; the same pair of dates asked
    again a minute later is served from the cache; another pair replaces
    the entry.  ([dayKey] stands in for the ISO text of a date.) *)
Lemma C9_single_entry_cache_witness :
  let first := getAllReadingsInRange dayKey initial day1 day2 1000 gapReadings in
  let again := getAllReadingsInRange dayKey (snd first) day1 day2 61000 [] in
  let other := getAllReadingsInRange dayKey (snd again) day2 day3 62000 firstDayOnly in
  readingsCache (snd first) = {[ "19675-19676" := gapReadings ]}
  /\ fst again = gapReadings
  /\ size (readingsCache (snd other)) = 1%nat
  /\ readingsCache (snd other) !! "19676-19677" = Some firstDayOnly.
Proof.
  intros first again other.
  pose proof (C9_single_entry_cache dayKey initial day1 day2 1000 gapReadings
                (reachable_initial dayKey)) as (_ & Hfirst & _).
  pose proof (C9_single_entry_cache dayKey (snd first) day1 day2 61000 []
                Hfirst) as (_ & Hagain & _).
  pose proof (C9_single_entry_cache dayKey (snd again) day2 day3 62000
                firstDayOnly Hagain) as (_ & _ & _ & Hsize & _).
  split; [vm_compute; reflexivity |].
  split; [vm_compute; reflexivity |].
  split; [exact Hsize |].
  vm_compute. reflexivity.
Defined.

End CacheRuns.

(** * Further properties of the report controller and the analysis sheets *)

(** ** The dates of a range *)

Section RangeMembership.
Import Dates.

Lemma startOfUTCDay_fixed d :
  startOfUTCDay d = d <-> exists k, d = k * MS_PER_DAY.
Proof.
  split.
  - intros Hd. exists (dayNumber d). rewrite <- startOfUTCDay_eq. auto.
  - intros [k ->]. unfold startOfUTCDay.
    rewrite Z.mod_mul by (pose proof MS_PER_DAY_pos; lia). lia.
Qed.

Lemma elem_of_daysFrom first n d :
  d ∈ daysFrom first n <->
  exists k, (k < n)%nat /\ d = first + Z.of_nat k * MS_PER_DAY.
Proof.
  unfold daysFrom. rewrite list_elem_of_fmap. split.
  - intros (k & -> & Hk). apply elem_of_seq in Hk. exists k. split; [lia | auto].
  - intros (k & Hk & ->). exists k. split; [auto |]. apply elem_of_seq. lia.
Qed.

(** A date is in the range exactly when it is a UTC midnight between the
    midnight of the start date's day and the end date; the range holds as
    many dates as there are such days. *)
Theorem getDatesInRange_elem (startDate endDate d : Z) :
  (d ∈ getDatesInRange startDate endDate <->
   startOfUTCDay d = d /\ startOfUTCDay startDate <= d <= endDate)
  /\ Z.of_nat (length (getDatesInRange startDate endDate))
     = Z.max 0 (dayNumber endDate - dayNumber startDate + 1).
Proof.
  pose proof MS_PER_DAY_pos as Hpos.
  rewrite getDatesInRange_shape.
  destruct (Z_le_gt_dec (startOfUTCDay startDate) endDate) as [Hle|Hgt].
  - assert (Hdays : dayNumber startDate <= dayNumber endDate).
    { rewrite <- (dayNumber_startOfUTCDay startDate). apply dayNumber_mono, Hle. }
    split; [| rewrite length_daysFrom; lia].
    rewrite elem_of_daysFrom.
    pose proof (startOfUTCDay_eq startDate) as Hfirst.
    pose proof (startOfUTCDay_le endDate) as He.
    rewrite startOfUTCDay_eq in He.
    split.
    + intros (k & Hk & ->). rewrite Hfirst.
      split; [apply startOfUTCDay_fixed; exists (dayNumber startDate + Z.of_nat k); lia |].
      split; [nia |]. nia.
    + intros (Hmid & Hlo & Hhi).
      apply startOfUTCDay_fixed in Hmid. destruct Hmid as [q ->].
      assert (Hq : q = dayNumber (q * MS_PER_DAY))
        by (unfold dayNumber; rewrite Z.div_mul; lia).
      pose proof (dayNumber_mono _ _ Hhi) as Hqe. rewrite <- Hq in Hqe.
      exists (Z.to_nat (q - dayNumber startDate)).
      split; [nia |]. nia.
  - split; [| cbn [length]].
    + split; [intros H; apply elem_of_nil in H; contradiction | lia].
    + assert (dayNumber endDate < dayNumber startDate).
      { destruct (Z_lt_le_dec (dayNumber endDate) (dayNumber startDate)) as [|Hge];
          [assumption |].
        pose proof (startOfUTCDay_le endDate) as He.
        rewrite !startOfUTCDay_eq in *. nia. }
      lia.
Qed.

End RangeMembership.

(** ** Column letters *)

(** The loop of the encoder, one turn at a time. *)
Lemma letterLoop_cases current letter :
  Columns.letterLoop current letter =
  if Z_gt_le_dec current 0
  then Columns.letterLoop ((current - (current - 1) mod 26 - 1) / 26)
         (String (Columns.fromCharCode ((current - 1) mod 26 + 65)) letter)
  else letter.
Proof. apply letterLoop_unfold. Qed.

Section LetterFacts.
Import Columns.

Lemma capitals_String c s :
  capitals (String c s) <-> 65 <= charCode c <= 90 /\ capitals s.
Proof.
  unfold capitals. cbn [list_ascii_of_string]. split.
  - intros H. apply Forall_cons in H. exact H.
  - intros H. apply Forall_cons. exact H.
Qed.

Lemma letterLoop_capitals current :
  0 <= current ->
  forall letter, capitals letter -> capitals (letterLoop current letter).
Proof.
  intros Hcur. generalize Hcur. pattern current.
  apply Z_lt_induction; [| assumption].
  clear current Hcur. intros current IH Hcur letter Hletter.
  rewrite letterLoop_cases.
  destruct (Z_gt_le_dec current 0) as [Hgt|Hle]; [| assumption].
  destruct (letter_step current ltac:(lia)) as (Htemp & Hnext & _).
  apply IH; [lia | lia |].
  apply capitals_String. split; [| assumption].
  rewrite charCode_fromCharCode by lia. lia.
Qed.

Lemma letterLoop_not_positive current letter :
  current <= 0 -> letterLoop current letter = letter.
Proof.
  intros Hle. rewrite letterLoop_cases.
  destruct (Z_gt_le_dec current 0); [lia | reflexivity].
Qed.

(** One more digit in front: the letter of [d] joins the letters. *)
Lemma letterLoop_digit m d letter :
  0 <= m -> 1 <= d <= 26 ->
  letterLoop (26 * m + d) letter
  = letterLoop m (String (fromCharCode (64 + d)) letter).
Proof.
  intros Hm Hd. rewrite letterLoop_cases.
  destruct (Z_gt_le_dec (26 * m + d) 0) as [_|Hle]; [| lia].
  assert (Hmod : (26 * m + d - 1) mod 26 = d - 1).
  { replace (26 * m + d - 1) with ((d - 1) + m * 26) by lia.
    rewrite Z.mod_add by lia. apply Z.mod_small. lia. }
  rewrite Hmod.
  replace (26 * m + d - (d - 1) - 1) with (m * 26) by lia.
  rewrite Z.div_mul by lia.
  replace (d - 1 + 65) with (64 + d) by lia. reflexivity.
Qed.

Lemma letterLoop_nonempty current letter :
  0 < current -> letterLoop current letter <> "".
Proof.
  intros Hpos. revert letter. generalize Hpos. pattern current.
  apply Z_lt_induction; [| lia].
  clear current Hpos. intros current IH Hpos letter.
  rewrite letterLoop_cases.
  destruct (Z_gt_le_dec current 0) as [_|Hle]; [| lia].
  destruct (letter_step current Hpos) as (_ & Hnext & _).
  destruct (Z.eq_dec ((current - (current - 1) mod 26 - 1) / 26) 0) as [->|Hne].
  - rewrite letterLoop_not_positive by lia. discriminate.
  - apply IH; lia.
Qed.



Lemma append_empty_r (s : string) : (s ++ "")%string = s.
Proof.
  induction s as [|c s IH]; [reflexivity |].
  change (String c (s ++ "")%string = String c s). f_equal. exact IH.
Qed.

(** The names [getColumnLetter] gives are made of capital letters only; a
    column below 1 has the empty name and no other has; columns 1 to 26
    have the one letter of their rank. *)
Theorem getColumnLetter_capitals (colIndex : Z) :
  capitals (getColumnLetter colIndex)
  /\ (getColumnLetter colIndex = "" <-> colIndex <= 0)
  /\ (1 <= colIndex <= 26 ->
      getColumnLetter colIndex = String (fromCharCode (64 + colIndex)) "").
Proof.
  unfold getColumnLetter. split; [| split].
  - destruct (Z_le_gt_dec 0 colIndex).
    + apply letterLoop_capitals; [assumption | constructor].
    + rewrite letterLoop_not_positive by lia. constructor.
  - split.
    + intros Hempty. destruct (Z_le_gt_dec colIndex 0); [assumption |].
      destruct (letterLoop_nonempty colIndex "" ltac:(lia) Hempty).
    + intros Hle. apply letterLoop_not_positive. assumption.
  - intros Hrange.
    replace colIndex with (26 * 0 + colIndex) at 1 by lia.
    rewrite letterLoop_digit by lia.
    apply letterLoop_not_positive. lia.
Qed.

Lemma getColumnLetter_capitals_witness :
  getColumnLetter 7 = "G".
Proof.
  destruct (getColumnLetter_capitals 7) as (_ & _ & Hone).
  rewrite Hone by lia. reflexivity.
Defined.



(** Different columns have different names. *)
Lemma getColumnLetter_inj a b :
  1 <= a -> 1 <= b -> getColumnLetter a = getColumnLetter b -> a = b.
Proof.
  intros Ha Hb Heq.
  assert (H : colToNum (getColumnLetter a) = colToNum (getColumnLetter b))
    by (rewrite Heq; reflexivity).
  unfold colToNum, getColumnLetter in H.
  rewrite !colToNumLoop_letterLoop in H by lia. exact H.
Qed.

End LetterFacts.

(** ** The readings a feeder's row is built from *)

Section ReadingFacts.
Import Dates Model.

Variable formatDate : Z -> string.

Lemma groupStep_lookup readingsByFeeder reading feederId :
  Fetch.groupStep readingsByFeeder reading !! feederId
  = if decide (reading_feeder reading = feederId)
    then Some (default [] (readingsByFeeder !! feederId) ++ [reading])
    else readingsByFeeder !! feederId.
Proof.
  unfold Fetch.groupStep. rewrite lookup_alter.
  destruct (decide (reading_feeder reading = feederId)) as [->|Hne].
  - destruct (readingsByFeeder !! feederId) as [l|] eqn:Hl.
    + rewrite Hl. reflexivity.
    + rewrite lookup_insert_eq. reflexivity.
  - destruct (readingsByFeeder !! reading_feeder reading); [reflexivity |].
    apply lookup_insert_ne. assumption.
Qed.

(** The readings a feeder's row is built from are the fetched readings of
    that feeder, in the order of the fetched list. *)
Lemma groupReadingsByFeeder_own (readings : list IFeederReading)
    (feederId : string) :
  default [] (Fetch.groupReadingsByFeeder readings !! feederId)
  = filter (fun r => reading_feeder r = feederId) readings
  /\ (Fetch.groupReadingsByFeeder readings !! feederId = None
      <-> filter (fun r => reading_feeder r = feederId) readings = []).
Proof.
  unfold Fetch.groupReadingsByFeeder.
  induction readings as [|reading rest IH] using rev_ind.
  - split; [reflexivity |]. cbn [fold_left].
    split; intros _; [reflexivity | apply lookup_empty].
  - destruct IH as [IHown IHnone].
    rewrite fold_left_app. cbn [fold_left].
    rewrite groupStep_lookup, filter_app.
    destruct (decide (reading_feeder reading = feederId)) as [Heq|Hne].
    + rewrite filter_cons_True by exact Heq. rewrite filter_nil.
      cbn [default]. rewrite IHown. split; [reflexivity |].
      split; [discriminate |].
      intros Hnil. apply app_eq_nil in Hnil. destruct Hnil as [_ Hnil].
      discriminate.
    + rewrite filter_cons_False by exact Hne. rewrite filter_nil, app_nil_r.
      split; assumption.
Qed.

(** The reading a key leads to, through the fold of [readingMap.set]. *)
Lemma readingMapOf_last (readings : list IFeederReading) (key : string) :
  Report.readingMapOf formatDate readings !! key
  = last (filter (fun r => formatDate (reading_date r) = key) readings).
Proof.
  unfold Report.readingMapOf.
  induction readings as [|reading rest IH] using rev_ind; [reflexivity |].
  rewrite fold_left_app. cbn [fold_left].
  rewrite lookup_insert, filter_app.
  destruct (decide (formatDate (reading_date reading) = key)) as [Heq|Hne].
  - rewrite filter_cons_True by exact Heq. rewrite filter_nil, last_snoc.
    reflexivity.
  - rewrite filter_cons_False by exact Hne. rewrite filter_nil, app_nil_r. exact IH.
Qed.

(** Under a feeder id the grouping holds the readings of that feeder, all
    of them, in the order of the fetched list; an id without a reading has
    no entry. *)
Theorem groupReadingsByFeeder_lookup (readings : list IFeederReading)
    (feederId : string) :
  Fetch.groupReadingsByFeeder readings !! feederId
  = match filter (fun r => reading_feeder r = feederId) readings with
    | [] => None
    | own => Some own
    end.
Proof.
  destruct (groupReadingsByFeeder_own readings feederId) as [Hown Hnone].
  destruct (Fetch.groupReadingsByFeeder readings !! feederId) as [own|].
  - cbn [default] in Hown. rewrite <- Hown.
    destruct own as [|r0 own]; [| reflexivity].
    destruct Hnone as [_ Hnone]. symmetry in Hown.
    specialize (Hnone Hown). discriminate.
  - rewrite (proj1 Hnone eq_refl). reflexivity.
Qed.

(** Under a key the reading map holds the last reading of the list that
    has the key: of two readings of one day, the later in the list wins,
    and a key no reading has is absent. *)
Theorem readingMapOf_lookup (readings : list IFeederReading) (key : string) :
  Report.readingMapOf formatDate readings !! key
  = last (filter (fun r => formatDate (reading_date r) = key) readings)
  /\ (Report.readingMapOf formatDate readings !! key = None
      <-> forall r, r ∈ readings -> formatDate (reading_date r) <> key).
Proof.
  split; [apply readingMapOf_last |].
  rewrite readingMapOf_last, last_None. split.
  - intros Hnil r Hin Hkey.
    assert (Hr : r ∈ filter (fun r => formatDate (reading_date r) = key) readings)
      by (apply list_elem_of_filter; auto).
    rewrite Hnil in Hr. inversion Hr.
  - intros Hnone.
    destruct (filter (fun r => formatDate (reading_date r) = key) readings)
      as [|r rest] eqn:Hfilter; [reflexivity |].
    assert (Hr : r ∈ filter (fun r => formatDate (reading_date r) = key) readings)
      by (rewrite Hfilter; apply elem_of_cons; left; reflexivity).
    apply list_elem_of_filter in Hr. destruct Hr as [Hkey Hin].
    destruct (Hnone r Hin Hkey).
Qed.

(** The row of a feeder is built from its own readings only: the actual
    of a day is the value of the last fetched reading that has the
    feeder's id and the day's key, and is carried forward when there is
    none. *)
Theorem matrix_uses_own_readings (allReadings : list IFeederReading)
    (feeder : PopulatedFeeder) (dates : list Z) (i : nat) (d : Z) :
  dates !! i = Some d ->
  let readingsByFeeder := Fetch.groupReadingsByFeeder allReadings in
  let readings := default [] (readingsByFeeder !! feeder_id feeder) in
  let rows :=
    Report.populateDateSpecificData formatDate feeder dates
      (Report.readingMapOf formatDate readings) 0%float in
  readings = filter (fun r => reading_feeder r = feeder_id feeder) allReadings
  /\ exists row,
       rows !! i = Some row
       /\ match last (filter
                        (fun r => formatDate (reading_date r) = formatDate d
                                  /\ reading_feeder r = feeder_id feeder)
                        allReadings) with
          | Some r => Report.actual row = cumulativeEnergyConsumption r
          | None => carriedFrom rows i 0%float (Report.actual row)
          end.
Proof.
  intros Hd readingsByFeeder readings rows.
  assert (Hown : readings
                 = filter (fun r => reading_feeder r = feeder_id feeder) allReadings).
  { subst readings readingsByFeeder.
    apply (groupReadingsByFeeder_own allReadings (feeder_id feeder)). }
  split; [exact Hown |].
  destruct (dateLoop_lookup formatDate feeder
              (Report.readingMapOf formatDate readings) dates 0 9 0%float i d Hd)
    as (row & Hrow & _ & _ & Hact & _).
  exists row. split; [exact Hrow |].
  assert (Hlook : Report.readingMapOf formatDate readings !! formatDate d
                  = last (filter
                            (fun r => formatDate (reading_date r) = formatDate d
                                      /\ reading_feeder r = feeder_id feeder)
                            allReadings)).
  { rewrite readingMapOf_last, Hown, list_filter_filter. reflexivity. }
  rewrite Hlook in Hact. exact Hact.
Qed.

End ReadingFacts.

Section ReadingRuns.
Import Dates Model Scenario.

(** The reading of another feeder on the second day does not fill the gap
    of the first feeder's row. *)
Lemma matrix_uses_own_readings_witness :
  exists row,
    Report.populateDateSpecificData dayKey (feederWith 30%float)
      [day1; day2; day3]
      (Report.readingMapOf dayKey
         (default []
            (Fetch.groupReadingsByFeeder
               (gapReadings
                ++ [{| reading_date := day2; reading_feeder := "f2";
                       cumulativeEnergyConsumption := 7%float |}])
             !! "f1")))
      0%float !! 1%nat = Some row
    /\ Report.actual row = 100%float.
Proof.
  destruct (matrix_uses_own_readings dayKey
              (gapReadings
               ++ [{| reading_date := day2; reading_feeder := "f2";
                      cumulativeEnergyConsumption := 7%float |}])
              (feederWith 30%float) [day1; day2; day3] 1 day2 eq_refl)
    as (_ & row & Hrow & _).
  exists row. split; [exact Hrow |].
  vm_compute in Hrow. injection Hrow as <-. reflexivity.
Defined.

End ReadingRuns.

(** ** Grouping the feeders by region *)

Section GroupingFacts.
Import Model.

Abbreviation regionOf f := (refName (region f)).

Lemma feedersByRegion_snoc feeders feeder :
  Report.feedersByRegion (feeders ++ [feeder])
  = Report.groupInsert (regionOf feeder) feeder (Report.feedersByRegion feeders).
Proof. unfold Report.feedersByRegion. rewrite fold_left_app. reflexivity. Qed.

Lemma groupInsert_keys regionName feeder groups :
  map fst (Report.groupInsert regionName feeder groups)
  = if decide (regionName ∈ map fst groups)
    then map fst groups
    else map fst groups ++ [regionName].
Proof.
  induction groups as [|[k fs] rest IH]; cbn [Report.groupInsert map fst].
  - destruct (decide (regionName ∈ [])) as [Hin|_]; [| reflexivity].
    apply elem_of_nil in Hin. contradiction.
  - destruct (String.eqb_spec k regionName) as [->|Hne]; cbn [map fst].
    + destruct (decide (regionName ∈ regionName :: map fst rest)) as [_|Hnot];
        [reflexivity |].
      destruct Hnot. apply elem_of_cons. left. reflexivity.
    + rewrite IH.
      destruct (decide (regionName ∈ map fst rest)) as [Hin|Hnot];
        destruct (decide (regionName ∈ k :: map fst rest)) as [Hin'|Hnot'];
        try reflexivity.
      * destruct Hnot'. apply elem_of_cons. right. assumption.
      * apply elem_of_cons in Hin'. destruct Hin' as [->|Hin']; contradiction.
Qed.

Lemma groupInsert_elem regionName feeder groups k l :
  NoDup (map fst groups) ->
  (k, l) ∈ Report.groupInsert regionName feeder groups ->
  (k <> regionName /\ (k, l) ∈ groups)
  \/ (k = regionName
      /\ ((exists before, (regionName, before) ∈ groups /\ l = before ++ [feeder])
          \/ ((regionName ∉ map fst groups) /\ l = [feeder]))).
Proof.
  induction groups as [|[k0 fs0] rest IH]; cbn [Report.groupInsert map fst];
    intros Hnodup Hin.
  - apply list_elem_of_singleton in Hin. injection Hin as -> ->.
    right. split; [reflexivity |]. right. split; [| reflexivity].
    intros H. apply elem_of_nil in H. contradiction.
  - apply NoDup_cons in Hnodup. destruct Hnodup as [Hk0 Hrest].
    destruct (String.eqb_spec k0 regionName) as [->|Hne].
    + apply elem_of_cons in Hin. destruct Hin as [Heq|Hin].
      * injection Heq as -> ->. right. split; [reflexivity |]. left.
        exists fs0. split; [| reflexivity]. apply elem_of_cons. left. reflexivity.
      * left. split.
        -- intros ->. apply Hk0. apply list_elem_of_fmap.
           exists (regionName, l). split; [reflexivity | assumption].
        -- apply elem_of_cons. right. assumption.
    + apply elem_of_cons in Hin. destruct Hin as [Heq|Hin].
      * injection Heq as -> ->. left. split; [assumption |].
        apply elem_of_cons. left. reflexivity.
      * destruct (IH Hrest Hin) as [[Hk Hl]|[-> [(before & Hb & ->)|[Hnot ->]]]].
        -- left. split; [assumption |]. apply elem_of_cons. right. assumption.
        -- right. split; [reflexivity |]. left. exists before.
           split; [| reflexivity]. apply elem_of_cons. right. assumption.
        -- right. split; [reflexivity |]. right. split; [| reflexivity].
           intros H. apply elem_of_cons in H. destruct H as [->|H]; contradiction.
Qed.

(** The groups have different region names; the group of a name holds the
    feeders of that region, all of them, in the order of the query, and is
    never empty; every feeder's region has its group. *)
Theorem feedersByRegion_groups (feeders : list PopulatedFeeder) :
  let groups := Report.feedersByRegion feeders in
  NoDup (map fst groups)
  /\ (forall regionName regionFeeders,
        (regionName, regionFeeders) ∈ groups ->
        regionFeeders = filter (fun f => regionOf f = regionName) feeders
        /\ regionFeeders <> [])
  /\ (forall feeder, feeder ∈ feeders -> regionOf feeder ∈ map fst groups).
Proof.
  induction feeders as [|feeder rest IH] using rev_ind.
  - cbn. split; [constructor |]. split.
    + intros k l H. apply elem_of_nil in H. contradiction.
    + intros f H. apply elem_of_nil in H. contradiction.
  - destruct IH as (Hnodup & Hgroups & Hkeys).
    cbn zeta. rewrite feedersByRegion_snoc.
    set (groups := Report.feedersByRegion rest) in *.
    assert (Hkeys' : map fst (Report.groupInsert (regionOf feeder) feeder groups)
                     = if decide (regionOf feeder ∈ map fst groups)
                       then map fst groups
                       else map fst groups ++ [regionOf feeder])
      by apply groupInsert_keys.
    split; [| split].
    + rewrite Hkeys'. destruct (decide _) as [|Hnot]; [assumption |].
      apply NoDup_app. split; [assumption |]. split; [| apply NoDup_singleton].
      intros x Hx Hx'. apply list_elem_of_singleton in Hx'. subst x. contradiction.
    + intros k l Hin. rewrite filter_app.
      destruct (groupInsert_elem _ _ _ _ _ Hnodup Hin)
        as [[Hk Hl]|[-> [(before & Hb & ->)|[Hnot ->]]]].
      * destruct (Hgroups k l Hl) as [-> Hne].
        rewrite filter_cons_False by (intros Heq; apply Hk; symmetry; exact Heq).
        rewrite filter_nil, app_nil_r. split; [reflexivity | assumption].
      * destruct (Hgroups _ _ Hb) as [-> _].
        rewrite filter_cons_True by reflexivity. rewrite filter_nil.
        split; [reflexivity |]. intros H. apply app_eq_nil in H.
        destruct H as [_ H]. discriminate.
      * rewrite filter_cons_True by reflexivity. rewrite filter_nil.
        assert (Hnone : filter (fun f => regionOf f = regionOf feeder) rest = []).
        { destruct (filter _ rest) as [|f0 fs] eqn:Hf; [reflexivity |].
          assert (Hf0 : f0 ∈ filter (fun f => regionOf f = regionOf feeder) rest)
            by (rewrite Hf; apply elem_of_cons; left; reflexivity).
          apply list_elem_of_filter in Hf0. destruct Hf0 as [Heq Hin0].
          destruct Hnot. rewrite <- Heq. apply Hkeys. assumption. }
        rewrite Hnone. split; [reflexivity | discriminate].
    + intros f Hf. rewrite Hkeys'. apply elem_of_app in Hf.
      destruct (decide _) as [Hin|Hnot].
      * destruct Hf as [Hf|Hf]; [apply Hkeys, Hf |].
        apply list_elem_of_singleton in Hf. subst f. assumption.
      * apply elem_of_app. destruct Hf as [Hf|Hf]; [left; apply Hkeys, Hf |].
        apply list_elem_of_singleton in Hf. subst f. right.
        apply elem_of_cons. left. reflexivity.
Qed.

End GroupingFacts.

(** ** The rows of the main sheet and the rows the router copies *)

Section LayoutFacts.
Import Model.

Variable formatDate : Z -> string.

Lemma feederSlots_rows regionName feeders :
  forall row serial,
    map slotRow (feederSlots regionName feeders row serial)
    = seqZ row (Z.of_nat (length feeders))
    /\ omap slotSerial (feederSlots regionName feeders row serial)
       = seqZ serial (Z.of_nat (length feeders))
    /\ omap slotFeeder (feederSlots regionName feeders row serial) = feeders.
Proof.
  induction feeders as [|f rest IH]; intros row serial;
    cbn [feederSlots map omap list_omap length slotRow slotSerial slotFeeder].
  - rewrite !seqZ_nil by lia. repeat split.
  - destruct (IH (row + 1) (serial + 1)) as (Hr & Hs & Hf).
    rewrite !(seqZ_cons _ (Z.of_nat (S (length rest)))) by lia.
    replace (Z.pred (Z.of_nat (S (length rest)))) with (Z.of_nat (length rest)) by lia.
    replace (Z.succ row) with (row + 1) by lia.
    replace (Z.succ serial) with (serial + 1) by lia.
    cbn. rewrite Hr, Hs, Hf. repeat split.
Qed.

Lemma slots_rows groups :
  forall row serial,
    map slotRow (slots groups row serial)
    = seqZ row (Z.of_nat (length groups + feederCount groups))
    /\ omap slotSerial (slots groups row serial)
       = seqZ serial (Z.of_nat (feederCount groups))
    /\ omap slotFeeder (slots groups row serial) = concat (map snd groups).
Proof.
  induction groups as [|[name fs] rest IH]; intros row serial.
  - cbn. rewrite !seqZ_nil by (cbn; lia). repeat split.
  - cbn [slots map omap list_omap slotRow slotSerial slotFeeder snd concat].
    destruct (feederSlots_rows name fs (row + 1) serial) as (Hr & Hs & Hf).
    destruct (IH (row + 1 + Z.of_nat (length fs)) (serial + Z.of_nat (length fs)))
      as (Hr' & Hs' & Hf').
    rewrite map_app, !omap_app, Hr, Hs, Hf, Hr', Hs', Hf'.
    assert (Hcount : feederCount ((name, fs) :: rest)
                     = (length fs + feederCount rest)%nat).
    { unfold feederCount. cbn [map snd concat]. apply length_app. }
    rewrite Hcount. split; [| split; [| reflexivity]].
    + rewrite (seqZ_cons row) by (cbn [length]; lia).
      replace (Z.succ row) with (row + 1) by lia.
      replace (Z.pred (Z.of_nat (length ((name, fs) :: rest)
                                 + (length fs + feederCount rest))))
        with (Z.of_nat (length fs) + Z.of_nat (length rest + feederCount rest))
        by (cbn [length]; lia).
      rewrite seqZ_app by lia. reflexivity.
    + rewrite Nat2Z.inj_add, seqZ_app by lia. reflexivity.
Qed.

Lemma controller_feeders_sheet includeCompliance dates readingsByFeeder
    regionName feeders :
  forall st st',
    Report.feedersLoop formatDate includeCompliance dates readingsByFeeder
      regionName feeders st = Some st' ->
    Report.sheet st'
    = Report.sheet st
      ++ map (writtenRow formatDate dates readingsByFeeder)
           (feederSlots regionName feeders (Report.rowIndex st)
              (Report.feederSerial st))
    /\ Report.rowIndex st' = Report.rowIndex st + Z.of_nat (length feeders)
    /\ Report.feederSerial st'
       = Report.feederSerial st + Z.of_nat (length feeders).
Proof.
  induction feeders as [|f rest IH]; intros st st';
    cbn [Report.feedersLoop feederSlots map length].
  - intros [= <-]. rewrite app_nil_r. repeat split; lia.
  - unfold Report.feederStep.
    destruct (Report.complianceEntries _ _ _ _ _ _ _) as [entries|];
      [| discriminate].
    intros Hrest. destruct (IH _ _ Hrest) as (Hsheet & Hrow & Hserial).
    cbn in Hsheet, Hrow, Hserial.
    rewrite Hsheet, Hrow, Hserial, <- app_assoc.
    repeat split; lia.
Qed.

Lemma controller_regions_sheet includeCompliance dates readingsByFeeder groups :
  forall st st',
    Report.regionsLoop formatDate includeCompliance dates readingsByFeeder
      groups st = Some st' ->
    Report.sheet st'
    = Report.sheet st
      ++ map (writtenRow formatDate dates readingsByFeeder)
           (slots groups (Report.rowIndex st) (Report.feederSerial st))
    /\ Report.rowIndex st'
       = Report.rowIndex st + Z.of_nat (length groups + feederCount groups)
    /\ Report.feederSerial st'
       = Report.feederSerial st + Z.of_nat (feederCount groups).
Proof.
  induction groups as [|[name fs] rest IH]; intros st st';
    cbn [Report.regionsLoop slots map].
  - intros [= <-]. rewrite app_nil_r. cbn. repeat split; lia.
  - destruct (Report.feedersLoop _ _ _ _ _ fs _) as [st1|] eqn:Hloop;
      [| discriminate].
    intros Hrest.
    destruct (controller_feeders_sheet _ _ _ _ _ _ _ Hloop) as (Hs1 & Hr1 & Hn1).
    destruct (IH _ _ Hrest) as (Hs & Hr & Hn).
    cbn in Hs1, Hr1, Hn1.
    assert (Hcount : feederCount ((name, fs) :: rest)
                     = (length fs + feederCount rest)%nat).
    { unfold feederCount. cbn [map snd concat]. apply length_app. }
    rewrite Hs, Hr, Hn, Hs1, Hr1, Hn1, Hcount, map_app, <- !app_assoc.
    cbn [length app writtenRow].
    replace (Report.rowIndex st + 1 + Z.of_nat (length fs))
      with (Report.rowIndex st + 1 + Z.of_nat (length fs)) by lia.
    repeat split; lia.
Qed.

Lemma controller_regions_plain dates readingsByFeeder groups :
  forall st,
    exists st',
      Report.regionsLoop formatDate false dates readingsByFeeder groups st
      = Some st'
      /\ Report.failedChecksSummary st' = Report.failedChecksSummary st.
Proof.
  induction groups as [|[name fs] rest IH]; intros st;
    cbn [Report.regionsLoop].
  - exists st. split; reflexivity.
  - assert (Hfeeders : forall st0,
               exists st1,
                 Report.feedersLoop formatDate false dates readingsByFeeder name
                   fs st0 = Some st1
                 /\ Report.failedChecksSummary st1
                    = Report.failedChecksSummary st0).
    { induction fs as [|f fs IHfs]; intros st0; cbn [Report.feedersLoop].
      - exists st0. split; reflexivity.
      - unfold Report.feederStep. cbn [Report.complianceEntries].
        match goal with
        | |- context [Report.feedersLoop _ _ _ _ _ fs ?s] =>
            destruct (IHfs s) as (st1 & H1 & H2)
        end.
        exists st1. split; [exact H1 |]. rewrite H2. cbn. apply app_nil_r. }
    match goal with
    | |- context [Report.feedersLoop _ _ _ _ _ fs ?s] =>
        destruct (Hfeeders s) as (st1 & H1 & H2)
    end.
    rewrite H1. destruct (IH st1) as (st' & H3 & H4).
    exists st'. split; [exact H3 |]. rewrite H4, H2. reflexivity.
Qed.




End LayoutFacts.

Section LayoutClaims.
Import Model.

Variable formatDate : Z -> string.

(** The main sheet is written row after row from row 5 on, a banner for
    each region and then its feeders; no row number is used twice; the
    feeders are numbered 1, 2, ... in that order and are the feeders of
    the query; the counters end after the last row and the last serial. *)
Theorem populateFeederData_layout (feeders : list PopulatedFeeder)
    (dates : list Z) (readingsByFeeder : gmap string (list IFeederReading))
    (includeCompliance : bool) (built : Report.BuilderState) :
  Report.populateFeederData formatDate feeders dates readingsByFeeder
    includeCompliance = Some built ->
  let groups := Report.feedersByRegion feeders in
  let placed := slots groups 5 1 in
  Report.sheet built = map (writtenRow formatDate dates readingsByFeeder) placed
  /\ map slotRow placed = seqZ 5 (Z.of_nat (length groups + length feeders))
  /\ NoDup (map slotRow placed)
  /\ omap slotSerial placed = seqZ 1 (Z.of_nat (length feeders))
  /\ omap slotFeeder placed ≡ₚ feeders
  /\ Report.rowIndex built = 5 + Z.of_nat (length groups + length feeders)
  /\ Report.feederSerial built = 1 + Z.of_nat (length feeders).
Proof.
  intros Hbuilt groups placed.
  destruct (controller_regions_sheet formatDate _ _ _ _ _ _ Hbuilt)
    as (Hsheet & Hrow & Hserial).
  destruct (slots_rows groups 5 1) as (Hrows & Hserials & Hfeeders).
  assert (Hcount : feederCount groups = length feeders).
  { unfold feederCount. apply Permutation_length, feedersByRegion_Permutation. }
  cbn in Hsheet, Hrow, Hserial. fold groups in Hsheet, Hrow, Hserial.
  rewrite Hcount in *. fold placed in Hsheet, Hrows, Hserials, Hfeeders.
  split; [exact Hsheet |]. split; [exact Hrows |].
  split; [rewrite Hrows; apply NoDup_seqZ |].
  split; [exact Hserials |].
  split; [rewrite Hfeeders; apply feedersByRegion_Permutation |].
  split; assumption.
Qed.

(** Running the compliance checks changes nothing on the main sheet: the
    run without them always ends, with an empty summary, and a run with
    them that ends has written the same rows. *)
Theorem compliance_leaves_sheet (feeders : list PopulatedFeeder)
    (dates : list Z) (readingsByFeeder : gmap string (list IFeederReading)) :
  exists plain,
    Report.populateFeederData formatDate feeders dates readingsByFeeder false
    = Some plain
    /\ Report.failedChecksSummary plain = []
    /\ forall built,
         Report.populateFeederData formatDate feeders dates readingsByFeeder true
         = Some built ->
         Report.sheet built = Report.sheet plain
         /\ Report.rowIndex built = Report.rowIndex plain
         /\ Report.feederSerial built = Report.feederSerial plain.
Proof.
  unfold Report.populateFeederData.
  destruct (controller_regions_plain formatDate dates readingsByFeeder
              (Report.feedersByRegion feeders)
              {| Report.rowIndex := 5; Report.feederSerial := 1;
                 Report.sheet := []; Report.failedChecksSummary := [] |})
    as (plain & Hplain & Hsummary).
  exists plain. split; [exact Hplain |]. split; [exact Hsummary |].
  intros built Hbuilt.
  destruct (controller_regions_sheet formatDate _ _ _ _ _ _ Hplain)
    as (Hs0 & Hr0 & Hn0).
  destruct (controller_regions_sheet formatDate _ _ _ _ _ _ Hbuilt)
    as (Hs1 & Hr1 & Hn1).
  rewrite Hs0, Hs1, Hr0, Hr1, Hn0, Hn1. repeat split.
Qed.

Lemma routeFeeder_copies regionName feeder readings dates row :
  fst (Analysis.routeFeeder formatDate regionName feeder readings dates row)
  = match routerVerdict formatDate feeder readings dates,
          lastDayVariance formatDate feeder readings dates with
    | Some failedChecks, Some v =>
        map (fun label => (label, row)) (bucketsOf failedChecks (0 <=? v)%float)
    | _, _ => []
    end.
Proof.
  unfold Analysis.routeFeeder, routerVerdict, lastDayVariance, bucketsOf.
  destruct (Analysis.lastDateStrOf formatDate readings); [| reflexivity].
  destruct (Analysis.lastReadingOf formatDate readings); [| reflexivity].
  destruct (0 <? _)%float; [| reflexivity].
  cbn [fst]. rewrite !map_app.
  destruct (0 <=? _)%float; destruct (length _ =? 0)%nat; reflexivity.
Qed.



End LayoutClaims.

Section LayoutRuns.
Import Model Scenario.

(** Two feeders of one region over one day: banner on row 5, feeders on
    rows 6 and 7 with serials 1 and 2. *)
Lemma populateFeederData_layout_witness :
  exists built,
    Report.populateFeederData dayKey [feederWith 100%float; feederWith 30%float]
      [day1] ∅ true = Some built
    /\ Report.rowIndex built = 8
    /\ Report.feederSerial built = 3.
Proof.
  destruct (Report.populateFeederData dayKey
              [feederWith 100%float; feederWith 30%float] [day1] ∅ true)
    as [built|] eqn:Hbuilt; [| vm_compute in Hbuilt; discriminate].
  exists built. split; [reflexivity |].
  destruct (populateFeederData_layout dayKey _ _ _ _ _ Hbuilt)
    as (_ & _ & _ & _ & _ & Hrow & Hserial).
  split; [rewrite Hrow | rewrite Hserial]; vm_compute; reflexivity.
Defined.


End LayoutRuns.

(** ** The sheets a classified row goes to *)

Section BucketFacts.
Import Model.

Lemma bucketsOf_sound failedChecks positive :
  failedChecks ∈ checkLists -> bucketsSound failedChecks positive.
Proof.
  intros Hin.
  assert (Hall : Forall (fun fc => bucketsSound fc true /\ bucketsSound fc false)
                   checkLists)
    by (apply (bool_decide_unpack _); vm_compute; exact I).
  pose proof (proj1 (Forall_forall _ _) Hall _ Hin) as [Ht Hf].
  destruct positive; assumption.
Qed.

Lemma checkLists_inRuleOrder l : l ∈ checkLists -> inRuleOrder l.
Proof.
  revert l. apply Forall_forall.
  apply (bool_decide_unpack _). vm_compute. exact I.
Qed.

(** The text of the failed-checks cell tells the lists apart. *)
Lemma join_checkLists_inj l1 l2 :
  l1 ∈ checkLists -> l2 ∈ checkLists ->
  join ", " l1 = join ", " l2 -> l1 = l2.
Proof.
  intros H1 H2.
  assert (Hall : Forall (fun a => Forall (fun b => join ", " a = join ", " b -> a = b)
                                    checkLists) checkLists)
    by (apply (bool_decide_unpack _); vm_compute; exact I).
  pose proof (proj1 (Forall_forall _ _) Hall _ H1) as Hrow.
  apply (proj1 (Forall_forall _ _) Hrow _ H2).
Qed.

(** A value above 0 is not at most 0. *)
Lemma positive_not_leb_zero (a : float) :
  (0 <? a)%float = true -> (a <=? 0)%float = false.
Proof.
  rewrite leb_spec, ltb_spec.
  change (Prim2SF 0%float) with (S754_zero false).
  destruct (Prim2SF a) as [s|s| |s m e]; try destruct s; cbn; congruence.
Qed.

End BucketFacts.

Section BucketClaims.
Import Dates Model.

Variable formatDate : Z -> string.

Lemma routerVerdict_variance feeder readings dates failedChecks :
  routerVerdict formatDate feeder readings dates = Some failedChecks ->
  exists v, lastDayVariance formatDate feeder readings dates = Some v.
Proof.
  unfold routerVerdict, lastDayVariance.
  destruct (Analysis.lastDateStrOf formatDate readings); [| discriminate].
  destruct (Analysis.lastReadingOf formatDate readings); [| discriminate].
  intros _. eexists. reflexivity.
Qed.

Lemma elem_of_labelled (labels : list string) (row : Z) label row' :
  (label, row') ∈ map (fun l => (l, row)) labels <-> row' = row /\ label ∈ labels.
Proof.
  rewrite list_elem_of_fmap. split.
  - intros (l & Heq & Hl). injection Heq as -> ->. split; [reflexivity | exact Hl].
  - intros [-> Hl]. exists label. split; [reflexivity | exact Hl].
Qed.

(** The copies the router makes for a feeder.  A feeder that passes the
    guard has its row copied, once each, to the sheets of the rules it
    failed and of no other rule, to 'Positive Variance' exactly when the
    variance is at least 0, and to 'No Flags' exactly when it adds no
    entry to the summary; no row is ever copied to the summary sheet.  A
    feeder that does not pass the guard has no copy and no entry.  No
    feeder adds more than one entry. *)
Theorem router_buckets (regionName : string) (feeder : PopulatedFeeder)
    (readings : list IFeederReading) (dates : list Z) (row : Z) :
  let routed :=
    Analysis.routeFeeder formatDate regionName feeder readings dates row in
  NoDup (fst routed)
  /\ (forall label row',
        (label, row') ∈ fst routed ->
        row' = row /\ label ∈ analysisCategories
        /\ label <> FAILED_CHECKS_SUMMARY)
  /\ (length (snd routed) <= 1)%nat
  /\ match routerVerdict formatDate feeder readings dates,
           lastDayVariance formatDate feeder readings dates with
     | Some failedChecks, Some v =>
         (forall label, label ∈ ruleLabels ->
                        ((label, row) ∈ fst routed <-> label ∈ failedChecks))
         /\ ((POSITIVE_VARIANCE, row) ∈ fst routed <-> (0 <=? v)%float = true)
         /\ ((NO_FLAGS, row) ∈ fst routed <-> snd routed = [])
     | _, _ => routed = ([], [])
     end.
Proof.
  intros routed.
  pose proof (routeFeeder_copies formatDate regionName feeder readings dates row)
    as Hcopies.
  pose proof (routeFeeder_by_verdict formatDate regionName feeder readings dates row)
    as Hrouted.
  fold routed in Hcopies, Hrouted.
  destruct (routerVerdict formatDate feeder readings dates) as [fc|] eqn:Hv.
  - destruct (routerVerdict_variance _ _ _ _ Hv) as [v Hvar].
    rewrite Hvar in Hcopies |- *.
    pose proof (bucketsOf_sound fc (0 <=? v)%float
                  (routerVerdict_in_checkLists formatDate _ _ _ _ Hv))
      as (Hnodup & Hcats & Hrules & Hpv & Hnf).
    assert (Hentries : snd routed = [] <-> fc = []).
    { rewrite Hrouted. cbn [snd]. destruct fc; cbn; split; congruence. }
    rewrite Hcopies.
    split; [| split; [| split; [| split; [| split]]]].
    + apply NoDup_fmap_2_strong; [| exact Hnodup].
      intros a b _ _ Heq. injection Heq as ->. reflexivity.
    + intros label row' Hin. apply elem_of_labelled in Hin.
      destruct Hin as [-> Hin]. split; [reflexivity |].
      apply (proj1 (Forall_forall _ _) Hcats _ Hin).
    + rewrite Hrouted. cbn [snd]. destruct (length fc =? 0)%nat; cbn; lia.
    + intros label Hlabel. rewrite elem_of_labelled.
      pose proof (proj1 (Forall_forall _ _) Hrules _ Hlabel) as Hiff.
      split; [intros [_ H]; apply Hiff, H | intros H; split; [reflexivity | apply Hiff, H]].
    + rewrite elem_of_labelled. split; [intros [_ H]; apply Hpv, H |].
      intros H. split; [reflexivity | apply Hpv, H].
    + rewrite elem_of_labelled, Hentries.
      split; [intros [_ H]; apply Hnf, H |].
      intros H. split; [reflexivity | apply Hnf, H].
  - rewrite Hcopies, Hrouted. cbn [snd length].
    split; [constructor |]. split; [| split; [lia | reflexivity]].
    intros label row' H. apply elem_of_nil in H. contradiction.
Qed.

(** The failed checks come in the order of the rules, at most three of
    them, from both classifiers. *)
Theorem failed_checks_in_rule_order (feeder : PopulatedFeeder)
    (readingMap : gmap string IFeederReading) (dates : list Z)
    (prevActual : float) (readings : list IFeederReading) :
  match Report.runComplianceChecks formatDate feeder readingMap dates prevActual with
  | Some failedChecks => inRuleOrder failedChecks
  | None => dates = []
  end
  /\ match routerVerdict formatDate feeder readings dates with
     | Some failedChecks => inRuleOrder failedChecks
     | None => True
     end.
Proof.
  split.
  - unfold Report.runComplianceChecks.
    destruct (last dates) as [lastDate|] eqn:Hlast.
    + apply checkLists_inRuleOrder, complianceChecksOn_in_checkLists.
    + apply last_None. exact Hlast.
  - destruct (routerVerdict formatDate feeder readings dates) as [fc|] eqn:Hv;
      [| exact I].
    apply checkLists_inRuleOrder, (routerVerdict_in_checkLists formatDate _ _ _ _ Hv).
Qed.

Lemma complianceChecksOn_single_day feeder readingMap lastDate prevActual :
  Report.complianceChecksOn formatDate feeder readingMap lastDate 1 prevActual
  ∈ singleDayLists.
Proof.
  unfold Report.complianceChecksOn.
  destruct (readingMap !! formatDate lastDate) as [lastReading|];
    [| apply elem_of_cons; left; reflexivity].
  destruct (cumulativeEnergyConsumption lastReading <=? 0)%float;
    [apply elem_of_cons; left; reflexivity |].
  unfold Report.declineCheck, Report.dailyUptakeCheck. cbn [Z.ltb Z.compare andb app].
  rewrite app_nil_r.
  destruct (nominationCheck_cases
              (cumulativeEnergyConsumption lastReading)
              (dailyEnergyUptake feeder * numOfZ 1)%float) as [->|[->| ->]];
    apply (bool_decide_unpack _); vm_compute; exact I.
Qed.

End BucketClaims.

Section ClassifierClaims.
Import Dates Model.

Variable formatDate : Z -> string.

(** A report on one day can flag the nomination only: on a single date
    [runComplianceChecks] returns no label or one nomination label, and
    every entry of the summary of such a run carries '< 70% Nom' or
    '> 130% Nom' alone, under the key of that date. *)
Theorem single_day_flags_nomination_only (feeders : list PopulatedFeeder)
    (d : Z) (readingsByFeeder : gmap string (list IFeederReading))
    (feeder : PopulatedFeeder) (readingMap : gmap string IFeederReading)
    (prevActual : float) :
  (exists failedChecks,
     Report.runComplianceChecks formatDate feeder readingMap [d] prevActual
     = Some failedChecks
     /\ failedChecks ∈ singleDayLists)
  /\ exists built,
       Report.populateFeederData formatDate feeders [d] readingsByFeeder true
       = Some built
       /\ Forall (fun entry =>
                    (fc_failedChecks entry = [NOM_LOW]
                     \/ fc_failedChecks entry = [NOM_HIGH])
                    /\ fc_date entry = formatDate d)
            (Report.failedChecksSummary built).
Proof.
  split.
  - eexists. split; [reflexivity |]. apply complianceChecksOn_single_day.
  - destruct (controller_regions_total formatDate true [d] readingsByFeeder
                (Report.feedersByRegion feeders) ltac:(discriminate)
                {| Report.rowIndex := 5; Report.feederSerial := 1;
                   Report.sheet := []; Report.failedChecksSummary := [] |})
      as [built Hbuilt].
    exists built. split; [exact Hbuilt |].
    rewrite (controller_regions_summary formatDate _ _ _ _ _ _ Hbuilt).
    cbn [Report.failedChecksSummary app].
    apply Forall_forall. intros entry Hentry.
    apply list_elem_of_In, in_flat_map in Hentry.
    destruct Hentry as ([name fs] & _ & Hentry).
    apply in_flat_map in Hentry. destruct Hentry as (f & _ & Hentry).
    apply list_elem_of_In in Hentry.
    rewrite controllerEntries_by_checks in Hentry.
    cbn [last fst] in Hentry. unfold Report.runComplianceChecks in Hentry.
    cbn [last length Z.of_nat Pos.of_succ_nat] in Hentry.
    pose proof (complianceChecksOn_single_day formatDate f
                  (Report.readingMapOf formatDate
                     (default [] (readingsByFeeder !! feeder_id f)))
                  d 0%float) as Hlists.
    destruct (Report.complianceChecksOn _ _ _ _ _ _) as [|label labels];
      [apply elem_of_nil in Hentry; contradiction |].
    apply list_elem_of_singleton in Hentry. subst entry. cbn.
    split; [| reflexivity].
    apply elem_of_cons in Hlists. destruct Hlists as [Hl|Hl]; [discriminate |].
    apply elem_of_cons in Hl. destruct Hl as [Hl|Hl]; [left; exact Hl |].
    apply list_elem_of_singleton in Hl. right. exact Hl.
Qed.

(** When the last reading of a feeder is dated the last day of the range,
    the two classifiers agree: the list the router builds is the list the
    report controller returns. *)
Theorem classifiers_agree_on_last_day (feeder : PopulatedFeeder)
    (readings : list IFeederReading) (dates : list Z) (lastDate : Z)
    (lastReading : IFeederReading) (failedChecks : list string) :
  last dates = Some lastDate ->
  Analysis.lastDateStrOf formatDate readings = Some (formatDate lastDate) ->
  Analysis.lastReadingOf formatDate readings = Some lastReading ->
  Analysis.dayIndexOf formatDate dates (formatDate lastDate)
  = Z.of_nat (length dates) ->
  formatDate (addUTCDays (reading_date lastReading) (-1))
  = formatDate (addUTCDays lastDate (-1)) ->
  routerVerdict formatDate feeder readings dates = Some failedChecks ->
  Report.runComplianceChecks formatDate feeder
    (Report.readingMapOf formatDate readings) dates 0%float
  = Some failedChecks.
Proof.
  intros Hlast Hstr Hreading Hindex Hprev Hverdict.
  unfold routerVerdict in Hverdict. rewrite Hstr, Hreading in Hverdict.
  destruct (0 <? cumulativeEnergyConsumption lastReading)%float eqn:Hpos;
    [| discriminate].
  injection Hverdict as <-.
  assert (Hlook : Report.readingMapOf formatDate readings !! formatDate lastDate
                  = Some lastReading).
  { unfold Analysis.lastReadingOf in Hreading. rewrite Hstr in Hreading.
    destruct (Analysis.truthy (formatDate lastDate)); [exact Hreading | discriminate]. }
  unfold Report.runComplianceChecks. rewrite Hlast. f_equal.
  unfold Report.complianceChecksOn. rewrite Hlook.
  rewrite (positive_not_leb_zero _ Hpos).
  unfold Analysis.failedChecksOf. rewrite Hindex.
  unfold Report.previousDayActualOf, Analysis.previousDayActualOf.
  rewrite Hprev.
  destruct (1 <? Z.of_nat (length dates)) eqn:Hlong; [reflexivity |].
  unfold Report.declineCheck, Report.dailyUptakeCheck. rewrite Hlong.
  reflexivity.
Qed.

(** The text of the failed-checks cell of the summary determines the list
    of failed checks, whichever classifier built it. *)
Theorem summary_text_determines_checks (feeder1 feeder2 : PopulatedFeeder)
    (readingMap1 readingMap2 : gmap string IFeederReading)
    (dates1 dates2 : list Z) (prev1 prev2 : float)
    (checks1 checks2 : list string) :
  Report.runComplianceChecks formatDate feeder1 readingMap1 dates1 prev1
  = Some checks1 ->
  Report.runComplianceChecks formatDate feeder2 readingMap2 dates2 prev2
  = Some checks2 ->
  join ", " checks1 = join ", " checks2 ->
  checks1 = checks2.
Proof.
  unfold Report.runComplianceChecks.
  destruct (last dates1); [| discriminate].
  destruct (last dates2); [| discriminate].
  intros [= <-] [= <-].
  apply join_checkLists_inj; apply complianceChecksOn_in_checkLists.
Qed.

End ClassifierClaims.

Section ClassifierAgreementRuns.
Import Dates Model Scenario.

(** Readings of 100 and 90 on the two days of the range: both classifiers
    flag the decline and the two low marks. *)
Lemma classifiers_agree_on_last_day_witness :
  Report.runComplianceChecks dayKey (feederWith 100%float)
    (Report.readingMapOf dayKey
       [readingOn day1 100%float; readingOn day2 90%float])
    [day1; day2] 0%float
  = Some [DECLINE; NOM_LOW; UPTAKE_LOW].
Proof.
  apply (classifiers_agree_on_last_day dayKey (feederWith 100%float)
           [readingOn day1 100%float; readingOn day2 90%float]
           [day1; day2] day2 (readingOn day2 90%float));
    vm_compute; reflexivity.
Defined.

(** Two runs whose cells read the same have the same list. *)
Lemma summary_text_determines_checks_witness :
  exists checks,
    Report.runComplianceChecks dayKey (feederWith 30%float)
      (Report.readingMapOf dayKey gapReadings) [day1; day2; day3] 0%float
    = Some checks
    /\ [UPTAKE_HIGH] = checks.
Proof.
  eexists. split; [reflexivity |].
  apply (summary_text_determines_checks dayKey
           (feederWith 30%float) (feederWith 30%float)
           (Report.readingMapOf dayKey [readingOn day3 60%float])
           (Report.readingMapOf dayKey gapReadings)
           [day2; day3] [day1; day2; day3] 0%float 0%float);
    vm_compute; reflexivity.
Defined.

End ClassifierAgreementRuns.

(** ** Repeated and alternating calls of the cache *)

Section CacheUse.
Import Model Cache.

Variable toISOString : Z -> string.

(** After a call from a state the cache can reach, the cache holds one
    entry, under the key of the call. *)
Lemma call_leaves_one_entry (st : CacheState) (startDate endDate now : Z)
    (fetched : list IFeederReading) :
  reachable toISOString st ->
  exists readings,
    readingsCache
      (snd (getAllReadingsInRange toISOString st startDate endDate now fetched))
    = {[ cacheKeyOf toISOString startDate endDate := readings ]}.
Proof.
  intros Hst. unfold getAllReadingsInRange.
  destruct (cached st (cacheKeyOf toISOString startDate endDate) now)
    as [readings|] eqn:Hc; cbn [snd].
  - apply cached_Some in Hc. destruct Hc as [Hlook _].
    destruct (reachable_shape toISOString st Hst) as [Hempty|(k & rs & Hsingle)].
    + rewrite Hempty, lookup_empty in Hlook. discriminate.
    + rewrite Hsingle in Hlook |- *.
      apply lookup_singleton_Some in Hlook. destruct Hlook as [-> ->].
      exists readings. reflexivity.
  - exists fetched. apply insert_empty.
Qed.

(** After a call that had to fetch, the same pair of dates asked again is
    served from the cache, the store's new answer unused and the cache
    untouched, as long as less than five minutes have passed since the
    first call; from five minutes on the readings are fetched again. *)
Theorem cache_serves_repeat (st : CacheState) (startDate endDate : Z)
    (now now' : Z) (fetched fetched' : list IFeederReading) :
  cached st (cacheKeyOf toISOString startDate endDate) now = None ->
  let first :=
    getAllReadingsInRange toISOString st startDate endDate now fetched in
  fst first = fetched
  /\ getAllReadingsInRange toISOString (snd first) startDate endDate now' fetched'
     = if now' - now <? CACHE_TTL
       then (fetched, snd first)
       else (fetched',
             update (snd first) (cacheKeyOf toISOString startDate endDate)
               now' fetched').
Proof.
  intros Hmiss first. subst first. unfold getAllReadingsInRange.
  rewrite Hmiss. cbn [fst snd]. split; [reflexivity |].
  unfold cached, update. cbn [readingsCache cacheTimestamp].
  rewrite lookup_insert_eq.
  destruct (now' - now <? CACHE_TTL); reflexivity.
Qed.

(** A call for another pair of dates takes the place of the entry: the
    first pair, asked again at any time, is fetched again. *)
Theorem cache_other_range_evicts (st : CacheState)
    (startDate endDate otherStart otherEnd : Z) (now now' : Z)
    (fetched fetched' : list IFeederReading) :
  reachable toISOString st ->
  cacheKeyOf toISOString otherStart otherEnd
  <> cacheKeyOf toISOString startDate endDate ->
  let between :=
    getAllReadingsInRange toISOString st otherStart otherEnd now fetched in
  let again :=
    getAllReadingsInRange toISOString (snd between) startDate endDate now'
      fetched' in
  cached (snd between) (cacheKeyOf toISOString startDate endDate) now' = None
  /\ fst again = fetched'
  /\ readingsCache (snd again)
     = {[ cacheKeyOf toISOString startDate endDate := fetched' ]}.
Proof.
  intros Hst Hne between again.
  destruct (call_leaves_one_entry st otherStart otherEnd now fetched Hst)
    as (readings & Hone).
  fold between in Hone.
  assert (Hmiss : cached (snd between)
                    (cacheKeyOf toISOString startDate endDate) now' = None).
  { unfold cached. rewrite Hone, lookup_singleton_ne by exact Hne. reflexivity. }
  split; [exact Hmiss |].
  subst again. unfold getAllReadingsInRange at 1 2. rewrite Hmiss.
  cbn [fst snd update readingsCache]. split; [reflexivity | apply insert_empty].
Qed.

End CacheUse.

Section CacheUseRuns.
Import Model Cache Scenario.

(** A minute after the first call the readings it fetched are served
    again, whatever the store would answer now. *)
Lemma cache_serves_repeat_witness :
  let first := getAllReadingsInRange dayKey initial day1 day2 1000 gapReadings in
  getAllReadingsInRange dayKey (snd first) day1 day2 61000 []
  = (gapReadings, snd first).
Proof.
  intros first.
  destruct (cache_serves_repeat dayKey initial day1 day2 1000 61000
              gapReadings [] ltac:(vm_compute; reflexivity)) as [_ Hagain].
  exact Hagain.
Defined.

(** A call for the second and third day between two calls for the first
    and second day makes the later of these fetch again, within the
    minute. *)
Lemma cache_other_range_evicts_witness :
  let first := getAllReadingsInRange dayKey initial day1 day2 1000 gapReadings in
  let between :=
    getAllReadingsInRange dayKey (snd first) day2 day3 2000 firstDayOnly in
  fst (getAllReadingsInRange dayKey (snd between) day1 day2 3000 []) = [].
Proof.
  intros first between.
  assert (Hfirst : reachable dayKey (snd first)).
  { apply (reachable_update dayKey initial day1 day2 1000 gapReadings).
    apply reachable_initial. }
  destruct (cache_other_range_evicts dayKey (snd first) day1 day2 day2 day3
              2000 3000 firstDayOnly [] Hfirst
              ltac:(vm_compute; discriminate)) as (_ & Hagain & _).
  exact Hagain.
Defined.

End CacheUseRuns.

(** ** The merged ranges of the header rows *)

Section MergeFacts.
Import Columns Merges.

Lemma digitsLoop_cases n acc :
  digitsLoop n acc =
  if Z_gt_le_dec n 0
  then digitsLoop (n / 10) (String (fromCharCode (48 + n mod 10)) acc)
  else acc.
Proof.
  rewrite digitsLoop_equation_1.
  destruct (Z_gt_le_dec n 0); reflexivity.
Qed.

Lemma digits_String c s :
  digits (String c s) <-> 48 <= charCode c <= 57 /\ digits s.
Proof.
  unfold digits. cbn [list_ascii_of_string]. split.
  - intros H. apply Forall_cons in H. exact H.
  - intros H. apply Forall_cons. exact H.
Qed.

(** One turn of the loop takes off the last decimal digit. *)
Lemma digit_step n :
  0 < n -> 0 <= n mod 10 < 10 /\ 0 <= n / 10 < n /\ n / 10 * 10 + n mod 10 = n.
Proof.
  intros Hpos.
  pose proof (Z.mod_pos_bound n 10 eq_refl).
  pose proof (Z.div_mod n 10 ltac:(lia)).
  assert (0 <= n / 10) by (apply Z.div_pos; lia).
  assert (n / 10 < n) by (apply Z.div_lt; lia).
  lia.
Qed.

Lemma digitsLoop_digits n :
  0 <= n -> forall acc, digits acc -> digits (digitsLoop n acc).
Proof.
  intros Hn. generalize Hn. pattern n.
  apply Z_lt_induction; [| assumption].
  clear n Hn. intros n IH Hn acc Hacc.
  rewrite digitsLoop_cases.
  destruct (Z_gt_le_dec n 0) as [Hgt|Hle]; [| assumption].
  destruct (digit_step n ltac:(lia)) as (Hmod & Hdiv & _).
  apply IH; [lia | lia |].
  apply digits_String. split; [| assumption].
  rewrite charCode_fromCharCode by lia. lia.
Qed.

Lemma digitsLoop_nonempty n acc : 0 < n -> digitsLoop n acc <> "".
Proof.
  intros Hpos. revert acc. generalize Hpos. pattern n.
  apply Z_lt_induction; [| lia].
  clear n Hpos. intros n IH Hpos acc.
  rewrite digitsLoop_cases.
  destruct (Z_gt_le_dec n 0) as [_|Hle]; [| lia].
  destruct (digit_step n Hpos) as (_ & Hdiv & _).
  destruct (Z.eq_dec (n / 10) 0) as [Hzero|Hne].
  - rewrite Hzero, digitsLoop_cases.
    destruct (Z_gt_le_dec 0 0); [lia | discriminate].
  - apply IH; lia.
Qed.

(** Reading back what the loop wrote in front of [acc] is reading [acc]
    from the number written. *)
Lemma parseDigits_digitsLoop n :
  0 <= n ->
  forall acc, parseDigits (digitsLoop n acc) 0 = parseDigits acc n.
Proof.
  intros Hn. generalize Hn. pattern n.
  apply Z_lt_induction; [| assumption].
  clear n Hn. intros n IH Hn acc.
  rewrite digitsLoop_cases.
  destruct (Z_gt_le_dec n 0) as [Hgt|Hle].
  - destruct (digit_step n ltac:(lia)) as (Hmod & Hdiv & Heq).
    rewrite IH by lia. cbn [parseDigits].
    rewrite charCode_fromCharCode by lia. f_equal. lia.
  - replace n with 0 by lia. reflexivity.
Qed.

(** A row number in a template literal: digits only, at least one, and
    [parseInt] reads the number back. *)
Lemma numberToString_parseInt n :
  0 <= n ->
  digits (numberToString n) /\ numberToString n <> ""
  /\ parseInt (numberToString n) = n.
Proof.
  intros Hn. unfold numberToString, parseInt.
  destruct (Z.eqb_spec n 0) as [->|Hne].
  - split; [| split; [discriminate | reflexivity]].
    repeat constructor; vm_compute; discriminate.
  - destruct (Z.ltb_spec n 0) as [Hneg|_]; [lia |].
    split; [apply digitsLoop_digits; [lia | constructor] |].
    split; [apply digitsLoop_nonempty; lia |].
    rewrite parseDigits_digitsLoop by lia. reflexivity.
Qed.

Lemma span_run (p : ascii -> bool) (s rest : string) :
  Forall (fun c => p c = true) (list_ascii_of_string s) ->
  stops p rest ->
  span p (s ++ rest) = (s, rest).
Proof.
  intros Hs Hrest. induction s as [|c s IH].
  - change ("" ++ rest)%string with rest.
    destruct rest as [|c rest]; [reflexivity |].
    cbn in Hrest |- *. rewrite Hrest. reflexivity.
  - cbn [list_ascii_of_string] in Hs. apply Forall_cons in Hs.
    destruct Hs as [Hc Hs].
    change (String c s ++ rest)%string with (String c (s ++ rest)%string).
    cbn [span]. rewrite Hc, (IH Hs). reflexivity.
Qed.

Lemma capitals_isUpper s :
  capitals s -> Forall (fun c => isUpper c = true) (list_ascii_of_string s).
Proof.
  unfold capitals. intros H. eapply Forall_impl; [exact H |].
  intros c Hc. cbn beta in Hc |- *. unfold isUpper.
  apply andb_true_intro. split; apply Z.leb_le; lia.
Qed.

Lemma digits_isDigit s :
  digits s -> Forall (fun c => isDigit c = true) (list_ascii_of_string s).
Proof.
  unfold digits. intros H. eapply Forall_impl; [exact H |].
  intros c Hc. cbn beta in Hc |- *. unfold isDigit.
  apply andb_true_intro. split; apply Z.leb_le; lia.
Qed.

(** A number ends a run of capital letters. *)
Lemma digits_stop_capitals s rest :
  digits s -> s <> "" -> stops isUpper (s ++ rest).
Proof.
  intros Hs Hne. destruct s as [|c s]; [congruence |].
  apply digits_String in Hs. destruct Hs as [Hc _].
  change (String c s ++ rest)%string with (String c (s ++ rest)%string).
  cbn [stops]. unfold isUpper.
  destruct (Z.leb_spec 65 (charCode c)); [lia | reflexivity].
Qed.

Lemma length_positive s : s <> "" -> (0 <? String.length s)%nat = true.
Proof. destruct s; [congruence | reflexivity]. Qed.

Lemma matchRange_parts startCol startRow endCol endRow :
  capitals startCol -> startCol <> "" ->
  digits startRow -> startRow <> "" ->
  capitals endCol -> endCol <> "" ->
  digits endRow -> endRow <> "" ->
  matchRange (startCol ++ startRow ++ String ":" (endCol ++ endRow))
  = Some (startCol, startRow, endCol, endRow).
Proof.
  intros HsC HsCn HsR HsRn HeC HeCn HeR HeRn. unfold matchRange.
  rewrite (span_run isUpper startCol)
    by (apply capitals_isUpper, HsC || apply digits_stop_capitals; assumption).
  rewrite (span_run isDigit startRow)
    by (apply digits_isDigit, HsR || reflexivity).
  rewrite (span_run isUpper endCol)
    by (apply capitals_isUpper, HeC
        || (rewrite <- (append_empty_r endRow);
            apply digits_stop_capitals; assumption)).
  rewrite <- (append_empty_r endRow) at 1.
  rewrite (span_run isDigit endRow)
    by (apply digits_isDigit, HeR || exact I).
  rewrite !length_positive by assumption. reflexivity.
Qed.

Lemma rangeOf_dateHeaderRange columnIndex :
  1 <= columnIndex ->
  rangeOf (Headers.dateHeaderRange columnIndex)
  = Some {| rg_top := 3; rg_left := columnIndex;
            rg_bottom := 3; rg_right := columnIndex + 2 |}.
Proof.
  intros Hcol. unfold rangeOf, Headers.dateHeaderRange.
  change (getColumnLetter columnIndex ++ "3:"
          ++ getColumnLetter (columnIndex + 2) ++ "3")%string
    with (getColumnLetter columnIndex ++ "3"
          ++ String ":" (getColumnLetter (columnIndex + 2) ++ "3"))%string.
  assert (Hdigit : digits "3") by (repeat constructor; vm_compute; discriminate).
  rewrite matchRange_parts;
    try (unfold getColumnLetter; apply letterLoop_capitals; [lia | constructor]);
    try (unfold getColumnLetter; apply letterLoop_nonempty; lia);
    try exact Hdigit; try discriminate.
  unfold colToNum, getColumnLetter.
  rewrite !colToNumLoop_letterLoop by lia. reflexivity.
Qed.

Lemma rangeOf_bannerRange rowIndex :
  0 <= rowIndex ->
  rangeOf (bannerRange rowIndex)
  = Some {| rg_top := rowIndex; rg_left := 1;
            rg_bottom := rowIndex; rg_right := 7 |}.
Proof.
  intros Hrow. unfold rangeOf, bannerRange.
  destruct (numberToString_parseInt rowIndex Hrow) as (Hdigits & Hne & Hparse).
  change ("A" ++ numberToString rowIndex ++ ":G" ++ numberToString rowIndex)%string
    with ("A" ++ numberToString rowIndex
          ++ String ":" ("G" ++ numberToString rowIndex))%string.
  rewrite matchRange_parts;
    try assumption; try discriminate;
    try (repeat constructor; vm_compute; discriminate).
  rewrite Hparse. reflexivity.
Qed.

End MergeFacts.

Section MergeClaims.
Import Columns Merges.

(** The range [setupDateHeaders] merges over a date block and the range
    [populateFeederData] merges for the banner of a region are read back,
    by the pattern and the conversions of the header copy, as the row and
    column numbers they were written from. *)
Theorem merged_ranges_read_back (columnIndex rowIndex : Z) :
  1 <= columnIndex -> 0 <= rowIndex ->
  rangeOf (Headers.dateHeaderRange columnIndex)
  = Some {| rg_top := 3; rg_left := columnIndex;
            rg_bottom := 3; rg_right := columnIndex + 2 |}
  /\ rangeOf (bannerRange rowIndex)
     = Some {| rg_top := rowIndex; rg_left := 1;
               rg_bottom := rowIndex; rg_right := 7 |}.
Proof.
  intros Hcol Hrow. split.
  - apply rangeOf_dateHeaderRange. exact Hcol.
  - apply rangeOf_bannerRange. exact Hrow.
Qed.

Lemma merged_ranges_read_back_witness :
  rangeOf "AB3:AD3"
  = Some {| rg_top := 3; rg_left := 28; rg_bottom := 3; rg_right := 30 |}
  /\ rangeOf "A12:G12"
     = Some {| rg_top := 12; rg_left := 1; rg_bottom := 12; rg_right := 7 |}.
Proof.
  apply (merged_ranges_read_back 28 12); lia.
Defined.

(** The merges made on an analysis sheet are those of the listed ranges
    that match the pattern and whose top-left cell lies in rows 1 to 4 and
    columns 1 to [columnCount] and is a merged cell of the source, the
    range not being empty.  So, of the ranges the report controller merges
    on the main sheet, the header of a date block is merged again when its
    first cell is inside the columns copied, and the banner of a region,
    which is below row 4, never is. *)
Theorem headerMerges_elem (isMerged : Z -> Z -> bool)
    (mergedRanges : list string) (columnCount : Z) :
  (forall range,
     range ∈ headerMerges isMerged mergedRanges columnCount
     <-> (exists rangeStr,
            rangeStr ∈ mergedRanges /\ rangeOf rangeStr = Some range)
         /\ 1 <= rg_top range <= 4
         /\ 1 <= rg_left range <= columnCount
         /\ isMerged (rg_top range) (rg_left range) = true
         /\ rg_top range <= rg_bottom range
         /\ rg_left range <= rg_right range)
  /\ (forall columnIndex,
        1 <= columnIndex <= columnCount ->
        Headers.dateHeaderRange columnIndex ∈ mergedRanges ->
        isMerged 3 columnIndex = true ->
        {| rg_top := 3; rg_left := columnIndex;
           rg_bottom := 3; rg_right := columnIndex + 2 |}
        ∈ headerMerges isMerged mergedRanges columnCount)
  /\ (forall rowIndex range,
        5 <= rowIndex ->
        rangeOf (bannerRange rowIndex) = Some range ->
        range ∉ headerMerges isMerged mergedRanges columnCount).
Proof.
  assert (Hparts :
    forall range, range ∈ headerMerges isMerged mergedRanges columnCount <->
      (exists rangeStr, rangeStr ∈ mergedRanges /\ rangeOf rangeStr = Some range)
      /\ 1 <= rg_top range <= 4 /\ 1 <= rg_left range <= columnCount
      /\ isMerged (rg_top range) (rg_left range) = true
      /\ rg_top range <= rg_bottom range /\ rg_left range <= rg_right range).
  { intros range. unfold headerMerges.
    rewrite list_elem_of_In, in_flat_map. split.
    - intros (col & Hc & Hin). apply in_flat_map in Hin.
      destruct Hin as (row & Hr & Hin).
      apply list_elem_of_In, elem_of_seqZ in Hc.
      apply list_elem_of_In, elem_of_seqZ in Hr.
      destruct (isMerged row col) eqn:Hmerged; [| destruct Hin].
      apply list_elem_of_In, list_elem_of_omap in Hin.
      destruct Hin as (rangeStr & Hstr & Hat). unfold mergeAt in Hat.
      destruct (rangeOf rangeStr) as [found|] eqn:Hfound; [| discriminate].
      destruct ((rg_top found <=? row) && (row <=? rg_bottom found)
                && (rg_left found <=? col) && (col <=? rg_right found))
        eqn:Hinside; [| discriminate].
      destruct ((row =? rg_top found) && (col =? rg_left found))
        eqn:Hcorner; [| discriminate].
      injection Hat as ->.
      apply andb_prop in Hcorner. destruct Hcorner as [Hr' Hc'].
      apply Z.eqb_eq in Hr', Hc'. subst row col.
      repeat (apply andb_prop in Hinside; destruct Hinside as [Hinside ?]).
      repeat match goal with H : (_ <=? _) = true |- _ => apply Z.leb_le in H end.
      split; [exists rangeStr; split; assumption |].
      repeat split; (assumption || lia).
    - intros ((rangeStr & Hstr & Hfound) & Htop & Hleft & Hmerged & Hrows & Hcols).
      exists (rg_left range). split; [apply list_elem_of_In, elem_of_seqZ; lia |].
      apply in_flat_map. exists (rg_top range).
      split; [apply list_elem_of_In, elem_of_seqZ; lia |].
      rewrite Hmerged. apply list_elem_of_In, list_elem_of_omap.
      exists rangeStr. split; [assumption |].
      unfold mergeAt. rewrite Hfound, !Z.eqb_refl. cbn [andb].
      replace ((rg_top range <=? rg_top range) && (rg_top range <=? rg_bottom range)
               && (rg_left range <=? rg_left range)
               && (rg_left range <=? rg_right range)) with true; [reflexivity |].
      symmetry. repeat (apply andb_true_intro; split); apply Z.leb_le; lia. }
  split; [exact Hparts |]. split.
  - intros columnIndex Hcol Hlisted Hmerged. apply Hparts.
    cbn [rg_top rg_left rg_bottom rg_right].
    split; [| repeat split; (assumption || lia)].
    exists (Headers.dateHeaderRange columnIndex). split; [assumption |].
    apply rangeOf_dateHeaderRange. lia.
  - intros rowIndex range Hrow Hbanner Hin. apply Hparts in Hin.
    destruct Hin as (_ & Htop & _).
    rewrite rangeOf_bannerRange in Hbanner by lia.
    injection Hbanner as <-. cbn [rg_top] in Htop. lia.
Qed.

End MergeClaims.

(** ** The columns of a date *)

Section HeaderFacts.
Import Columns Model Headers.

Variable formatDate : Z -> string.

Lemma dateHeaders_cons date rest columnIndex :
  dateHeaders formatDate (date :: rest) columnIndex
  = dateHeaders formatDate [date] columnIndex
    ++ dateHeaders formatDate rest (columnIndex + 4).
Proof.
  cbn [dateHeaders]. rewrite app_nil_r, <- !app_assoc. reflexivity.
Qed.

(** What the loop writes is what it writes for each date at the column
    of its block. *)
Lemma dateHeaders_elem dates :
  forall columnIndex x,
    x ∈ dateHeaders formatDate dates columnIndex
    <-> exists (i : nat) date,
          dates !! i = Some date
          /\ x ∈ dateHeaders formatDate [date] (columnIndex + 4 * Z.of_nat i).
Proof.
  induction dates as [|d rest IH]; intros columnIndex x.
  - split; [intros H; inversion H | intros (i & date & Hi & _); discriminate].
  - rewrite dateHeaders_cons, elem_of_app, IH. split.
    + intros [Hhere|(i & date & Hi & Hin)].
      * exists 0%nat, d. split; [reflexivity |].
        replace (columnIndex + 4 * Z.of_nat 0) with columnIndex by lia.
        exact Hhere.
      * exists (S i), date. split; [exact Hi |].
        replace (columnIndex + 4 * Z.of_nat (S i))
          with (columnIndex + 4 + 4 * Z.of_nat i) by lia.
        exact Hin.
    + intros ([|i] & date & Hi & Hin).
      * injection Hi as ->. left.
        replace (columnIndex + 4 * Z.of_nat 0) with columnIndex in Hin by lia.
        exact Hin.
      * right. exists i, date. split; [exact Hi |].
        replace (columnIndex + 4 * Z.of_nat (S i))
          with (columnIndex + 4 + 4 * Z.of_nat i) in Hin by lia.
        exact Hin.
Qed.

(** The twelve writes of one block. *)
Lemma dateHeaders_block date columnIndex :
  dateHeaders formatDate [date] columnIndex
  = [MergeCells (dateHeaderRange columnIndex);
     SetValue (getColumnLetter columnIndex) 3 (formatDate date);
     SetBorder (getColumnLetter columnIndex) 3;
     SetValue (getColumnLetter columnIndex) 4 "Nomination";
     SetBorder (getColumnLetter columnIndex) 4;
     SetWidth columnIndex 15;
     SetValue (getColumnLetter (columnIndex + 1)) 4 "Actual";
     SetBorder (getColumnLetter (columnIndex + 1)) 4;
     SetWidth (columnIndex + 1) 15;
     SetValue (getColumnLetter (columnIndex + 2)) 4 "Variance";
     SetBorder (getColumnLetter (columnIndex + 2)) 4;
     SetWidth (columnIndex + 2) 15].
Proof.
  cbn [dateHeaders subHeaders subHeaderLabels app].
  replace (columnIndex + 1 + 1) with (columnIndex + 2) by lia. reflexivity.
Qed.

Lemma fixedWidths_no_value columnWidths :
  forall i column row value,
    SetValue column row value ∉ fixedWidths columnWidths i.
Proof.
  induction columnWidths as [|w rest IH]; intros i column row value Hin.
  - inversion Hin.
  - cbn [fixedWidths] in Hin. apply elem_of_cons in Hin.
    destruct Hin as [Heq|Hin]; [discriminate | exact (IH _ _ _ _ Hin)].
Qed.

(** The values [setupDateHeaders] writes: for each date, its formatted
    day in row 3 and the three labels in row 4. *)
Lemma setupDateHeaders_values dates column row value :
  SetValue column row value ∈ setupDateHeaders formatDate dates
  <-> exists (i : nat) date,
        dates !! i = Some date
        /\ ((column = getColumnLetter (9 + 4 * Z.of_nat i)
             /\ row = 3 /\ value = formatDate date)
            \/ exists (j : nat) label,
                 subHeaderLabels !! j = Some label
                 /\ column = getColumnLetter (9 + 4 * Z.of_nat i + Z.of_nat j)
                 /\ row = 4 /\ value = label).
Proof.
  unfold setupDateHeaders. rewrite elem_of_app, dateHeaders_elem. split.
  - intros [(i & date & Hi & Hin)|Hin];
      [| destruct (fixedWidths_no_value _ _ _ _ _ Hin)].
    exists i, date. split; [exact Hi |].
    rewrite dateHeaders_block in Hin.
    repeat (apply elem_of_cons in Hin; destruct Hin as [Heq|Hin];
            [try discriminate Heq |]);
      [ | | | | inversion Hin ];
      injection Heq as -> -> ->.
    + left. repeat split.
    + right. exists 0%nat, "Nomination". rewrite Z.add_0_r. repeat split.
    + right. exists 1%nat, "Actual". repeat split.
    + right. exists 2%nat, "Variance". repeat split.
  - intros (i & date & Hi & Hcase). left. exists i, date.
    split; [exact Hi |]. rewrite dateHeaders_block.
    destruct Hcase as [(-> & -> & ->)|(j & label & Hj & -> & -> & ->)].
    + apply elem_of_cons. right. apply elem_of_cons. left. reflexivity.
    + destruct j as [|[|[|j]]]; try discriminate Hj;
        injection Hj as <-; rewrite ?Z.add_0_r;
        repeat (first [apply list_elem_of_here | apply list_elem_of_further]).
Qed.

Lemma bordersFrom_elem rowIndex dateCount :
  forall dateColIndex (i : nat) (j : Z),
    (i < dateCount)%nat -> 0 <= j <= 2 ->
    SetBorder (getColumnLetter (dateColIndex + 4 * Z.of_nat i + j)) rowIndex
    ∈ bordersFrom rowIndex dateCount dateColIndex.
Proof.
  induction dateCount as [|n IH]; intros dateColIndex i j Hi Hj; [lia |].
  cbn [bordersFrom]. apply elem_of_app. destruct i as [|i].
  - left. unfold blockBorders. cbn [map].
    replace (dateColIndex + 4 * Z.of_nat 0 + j) with (dateColIndex + j) by lia.
    assert (Hcases : j = 0 \/ j = 1 \/ j = 2) by lia.
    destruct Hcases as [->|[->| ->]];
      repeat (first [apply list_elem_of_here | apply list_elem_of_further]).
  - right.
    replace (dateColIndex + 4 * Z.of_nat (S i) + j)
      with (dateColIndex + 4 + 4 * Z.of_nat i + j) by lia.
    apply IH; lia.
Qed.

End HeaderFacts.

Section HeaderClaims.
Import Columns Model Headers.

Variable formatDate : Z -> string.

(** The date at index [i] of the range owns the three columns from
    [9 + 4 * i] on, and no other date shares them: [setupDateHeaders]
    merges them in row 3 under the formatted day, the only value it writes
    there, and writes in row 4 the labels Nomination, Actual and Variance,
    one for each column and no other; [populateDateSpecificData] writes
    the three numbers of that date in the same columns of the feeder's
    row, and [addDateColumnBorders] borders the same columns of the row
    it is called for. *)
Theorem date_block_columns (dates : list Z) (i : nat) (date : Z)
    (feeder : PopulatedFeeder) (readingMap : gmap string IFeederReading)
    (prevActual : float) (rowIndex : Z) :
  dates !! i = Some date ->
  let columnIndex := 9 + 4 * Z.of_nat i in
  let headers := setupDateHeaders formatDate dates in
  MergeCells (dateHeaderRange columnIndex) ∈ headers
  /\ (forall value,
        SetValue (getColumnLetter columnIndex) 3 value ∈ headers
        <-> value = formatDate date)
  /\ (forall (j : nat) label,
        (j < 3)%nat ->
        SetValue (getColumnLetter (columnIndex + Z.of_nat j)) 4 label ∈ headers
        <-> subHeaderLabels !! j = Some label)
  /\ (exists cells,
        Report.populateDateSpecificData formatDate feeder dates readingMap
          prevActual !! i = Some cells
        /\ Report.cellAddresses rowIndex cells
           = [(getColumnLetter columnIndex, rowIndex);
              (getColumnLetter (columnIndex + 1), rowIndex);
              (getColumnLetter (columnIndex + 2), rowIndex)])
  /\ (forall j,
        0 <= j <= 2 ->
        SetBorder (getColumnLetter (columnIndex + j)) rowIndex
        ∈ addDateColumnBorders rowIndex (length dates)).
Proof.
  intros Hi columnIndex headers. subst columnIndex headers.
  split; [| split; [| split; [| split]]].
  - unfold setupDateHeaders. apply elem_of_app. left.
    apply dateHeaders_elem. exists i, date. split; [exact Hi |].
    rewrite dateHeaders_block. apply list_elem_of_here.
  - intros value. rewrite setupDateHeaders_values. split.
    + intros (i' & date' & Hi' & [(Hcol & _ & ->)|(j & label & _ & _ & Hrow & _)]);
        [| discriminate Hrow].
      apply getColumnLetter_inj in Hcol; [| lia | lia].
      assert (i' = i) by lia. subst i'. congruence.
    + intros ->. exists i, date. split; [exact Hi |]. left. repeat split.
  - intros j label Hj. rewrite setupDateHeaders_values. split.
    + intros (i' & date' & Hi' & [(_ & Hrow & _)|(j' & label' & Hj' & Hcol & _ & ->)]);
        [discriminate Hrow |].
      assert (j' < 3)%nat.
      { apply lookup_lt_Some in Hj'. exact Hj'. }
      apply getColumnLetter_inj in Hcol; [| lia | lia].
      assert (j' = j) by lia. subst j'. exact Hj'.
    + intros Hlabel. exists i, date. split; [exact Hi |]. right.
      exists j, label. repeat split. exact Hlabel.
  - destruct (dateLoop_lookup formatDate feeder readingMap dates 0%nat 9
                prevActual i date Hi) as (cells & Hcells & Hcol & _).
    exists cells. split; [exact Hcells |].
    unfold Report.cellAddresses. rewrite Hcol. reflexivity.
  - intros j Hj. unfold addDateColumnBorders. apply bordersFrom_elem.
    + apply lookup_lt_Some in Hi. exact Hi.
    + exact Hj.
Qed.

End HeaderClaims.

Section HeaderRuns.
Import Columns Model Headers Scenario.

(** The second of three days has the columns M, N and O. *)
Lemma date_block_columns_witness :
  MergeCells "M3:O3" ∈ setupDateHeaders dayKey [day1; day2; day3]
  /\ SetValue "N" 4 "Actual" ∈ setupDateHeaders dayKey [day1; day2; day3].
Proof.
  destruct (date_block_columns dayKey [day1; day2; day3] 1 day2
              (feederWith 30%float) ∅ 0%float 7 eq_refl)
    as (Hmerge & _ & Hlabels & _).
  split; [exact Hmerge |].
  apply (Hlabels 1%nat "Actual"); [lia | reflexivity].
Defined.

End HeaderRuns.

(** ** The day the router classifies *)

Section SortFacts.
Import Analysis.

Lemma string_leb_trans (a b c : string) :
  String.leb a b = true -> String.leb b c = true -> String.leb a c = true.
Proof.
  unfold String.leb. revert b c.
  induction a as [|x a IH]; intros [|y b] [|z c]; cbn [String.compare];
    try (intros; reflexivity); try discriminate.
  unfold Ascii.compare.
  destruct (N.compare_spec (N_of_ascii x) (N_of_ascii y)) as [Hxy|Hxy|Hxy];
    destruct (N.compare_spec (N_of_ascii y) (N_of_ascii z)) as [Hyz|Hyz|Hyz];
    destruct (N.compare_spec (N_of_ascii x) (N_of_ascii z)) as [Hxz|Hxz|Hxz];
    try (intros; reflexivity); try discriminate; try lia.
  apply IH.
Qed.

Lemma string_leb_refl (a : string) : String.leb a a = true.
Proof. destruct (String.leb_total a a); assumption. Qed.

Lemma insertString_elem s sorted x :
  x ∈ insertString s sorted <-> x = s \/ x ∈ sorted.
Proof.
  induction sorted as [|t rest IH]; cbn [insertString].
  - rewrite list_elem_of_singleton, elem_of_nil. tauto.
  - destruct (String.leb s t).
    + apply elem_of_cons.
    + rewrite !elem_of_cons, IH. tauto.
Qed.

Lemma sortStrings_elem l x : x ∈ sortStrings l <-> x ∈ l.
Proof.
  induction l as [|s l IH]; [reflexivity |].
  change (sortStrings (s :: l)) with (insertString s (sortStrings l)).
  rewrite insertString_elem, elem_of_cons, IH. reflexivity.
Qed.

(** The last string of [l] is above every string of [l]. *)
Lemma insertString_last s sorted :
  (forall k, last sorted = Some k -> forall x, x ∈ sorted -> String.leb x k = true) ->
  forall k, last (insertString s sorted) = Some k ->
  forall x, x ∈ insertString s sorted -> String.leb x k = true.
Proof.
  induction sorted as [|t rest IH]; intros Hsorted k Hk x Hx;
    cbn [insertString] in Hk, Hx.
  - injection Hk as <-. apply list_elem_of_singleton in Hx. subst x.
    apply string_leb_refl.
  - destruct (String.leb s t) eqn:Hst.
    + change (last (s :: t :: rest)) with (last (t :: rest)) in Hk.
      apply elem_of_cons in Hx. destruct Hx as [->|Hx].
      * apply (string_leb_trans _ t); [exact Hst |].
        apply (Hsorted k Hk). apply elem_of_cons. left. reflexivity.
      * apply (Hsorted k Hk). exact Hx.
    + assert (Hts : String.leb t s = true).
      { destruct (String.leb_total s t) as [H|H]; [congruence | exact H]. }
      assert (Hnonempty : insertString s rest <> []).
      { destruct rest as [|u others]; cbn [insertString]; [discriminate |].
        destruct (String.leb s u); discriminate. }
      assert (Hlast : last (insertString s rest) = Some k).
      { destruct (insertString s rest) as [|u others]; [congruence |].
        exact Hk. }
      assert (Hrest : forall k', last rest = Some k' ->
                      forall y, y ∈ rest -> String.leb y k' = true).
      { intros k' Hk' y Hy. apply (Hsorted k').
        - destruct rest as [|u others]; [discriminate | exact Hk'].
        - apply elem_of_cons. right. exact Hy. }
      apply elem_of_cons in Hx. destruct Hx as [->|Hx].
      * destruct (last rest) as [k'|] eqn:Hk'.
        -- apply (string_leb_trans _ k').
           ++ apply (Hsorted k').
              ** destruct rest as [|u others]; [discriminate | exact Hk'].
              ** apply elem_of_cons. left. reflexivity.
           ++ apply (IH Hrest k Hlast). apply insertString_elem. right.
              apply last_Some_elem_of. exact Hk'.
        -- apply last_None in Hk'. subst rest.
           cbn [insertString] in Hlast. injection Hlast as <-. exact Hts.
      * apply (IH Hrest k Hlast). exact Hx.
Qed.

Lemma sortStrings_last l :
  forall k, last (sortStrings l) = Some k ->
  forall x, x ∈ l -> String.leb x k = true.
Proof.
  induction l as [|s l IH]; intros k Hk x Hx; [inversion Hx |].
  change (sortStrings (s :: l)) with (insertString s (sortStrings l)) in Hk.
  apply (insertString_last s (sortStrings l)); [| exact Hk |].
  - intros k' Hk' y Hy. apply (IH k' Hk'). apply sortStrings_elem. exact Hy.
  - apply insertString_elem. apply elem_of_cons in Hx.
    destruct Hx as [->|Hx]; [left; reflexivity | right].
    apply sortStrings_elem. exact Hx.
Qed.

End SortFacts.

Section RouterKeyClaims.
Import Model Analysis.

Variable formatDate : Z -> string.

(** The day the router classifies for a feeder is the greatest date key
    among the feeder's readings, in the order of [sort()] on strings, and
    the reading it classifies is one of the feeder's readings under that
    key; there is such a reading unless the feeder has no reading or the
    greatest key is the empty string. *)
Theorem router_classifies_greatest_key (readings : list IFeederReading) :
  (lastDateStrOf formatDate readings = None <-> readings = [])
  /\ (forall lastDateStr,
        lastDateStrOf formatDate readings = Some lastDateStr ->
        (exists reading,
           reading ∈ readings
           /\ formatDate (reading_date reading) = lastDateStr)
        /\ (forall reading,
              reading ∈ readings ->
              String.leb (formatDate (reading_date reading)) lastDateStr = true)
        /\ (lastDateStr <> "" ->
            exists lastReading,
              lastReadingOf formatDate readings = Some lastReading))
  /\ (forall lastReading,
        lastReadingOf formatDate readings = Some lastReading ->
        lastReading ∈ readings
        /\ lastDateStrOf formatDate readings
           = Some (formatDate (reading_date lastReading))).
Proof.
  split; [| split].
  - unfold lastDateStrOf. rewrite last_None. split.
    + intros Hnil. destruct readings as [|r rest]; [reflexivity |].
      assert (Hin : formatDate (reading_date r)
                    ∈ sortStrings (map (fun r => formatDate (reading_date r))
                                     (r :: rest))).
      { apply sortStrings_elem. apply elem_of_cons. left. reflexivity. }
      rewrite Hnil in Hin. inversion Hin.
    + intros ->. reflexivity.
  - intros lastDateStr Hlast.
    assert (Hkey : exists reading,
               reading ∈ readings
               /\ formatDate (reading_date reading) = lastDateStr).
    { unfold lastDateStrOf in Hlast. apply last_Some_elem_of in Hlast.
      apply sortStrings_elem, list_elem_of_fmap in Hlast.
      destruct Hlast as (reading & -> & Hin). exists reading. auto. }
    split; [exact Hkey |]. split.
    + intros reading Hin. unfold lastDateStrOf in Hlast.
      apply (sortStrings_last _ _ Hlast).
      apply list_elem_of_fmap. exists reading. auto.
    + intros Hne. unfold lastReadingOf. rewrite Hlast.
      assert (Htruthy : truthy lastDateStr = true).
      { unfold truthy. destruct (String.eqb_spec lastDateStr ""); [congruence | reflexivity]. }
      rewrite Htruthy.
      destruct (Report.readingMapOf formatDate readings !! lastDateStr)
        as [found|] eqn:Hfound; [exists found; reflexivity |].
      destruct Hkey as (reading & Hin & Hk).
      destruct (readingMapOf_None formatDate _ _ Hfound reading Hin Hk).
  - intros lastReading Hreading. unfold lastReadingOf in Hreading.
    destruct (lastDateStrOf formatDate readings) as [lastDateStr|] eqn:Hlast;
      [| discriminate].
    destruct (truthy lastDateStr); [| discriminate].
    apply readingMapOf_Some in Hreading. destruct Hreading as [Hin <-].
    split; [exact Hin | reflexivity].
Qed.

End RouterKeyClaims.

(** ** The request handlers *)

Section HandlerClaims.
Import Dates Model Handlers.

Variable findRegion : string -> option string.
Variable findHub : string -> option string.
Variable findFeeders : FeederFilter -> list PopulatedFeeder.


(** The filter of [generateSpecificDateReport] is the filter of the two
    other handlers whenever every given name resolves; otherwise the
    request ends with 404 on the first name that does not resolve, the
    region before the business hub. *)
Theorem strict_filter_or_not_found (region businessHub : option string) :
  match strictFilter findRegion findHub region businessHub with
  | inl feederFilter =>
      feederFilter = lenientFilter findRegion findHub region businessHub
      /\ resolves findRegion region /\ resolves findHub businessHub
  | inr reply =>
      (exists name,
         given region = Some name /\ findRegion name = None
         /\ reply = Reply 404 ("Region '" ++ name ++ "' not found"))
      \/ (resolves findRegion region
          /\ exists hub,
               given businessHub = Some hub /\ findHub hub = None
               /\ reply = Reply 404 ("Business Hub '" ++ hub ++ "' not found"))
  end.
Proof.
  unfold strictFilter, lenientFilter, resolves.
  destruct (given region) as [name|] eqn:Hregion.
  - destruct (findRegion name) as [regionDoc|] eqn:HregionDoc.
    + destruct (given businessHub) as [hub|] eqn:Hhub.
      * destruct (findHub hub) as [hubDoc|] eqn:HhubDoc.
        -- repeat split; discriminate.
        -- right. split; [discriminate |].
           exists hub. repeat split; assumption.
      * repeat split; discriminate.
    + left. exists name. repeat split; assumption.
  - destruct (given businessHub) as [hub|] eqn:Hhub.
    + destruct (findHub hub) as [hubDoc|] eqn:HhubDoc.
      * repeat split; discriminate.
      * right. split; [exact I |]. exists hub. repeat split; assumption.
    + repeat split.
Qed.


End HandlerClaims.

Section HandlerClaimRuns.
Import Dates Model Scenario Handlers.


End HandlerClaimRuns.

Section DailyClaims.
Import Dates Model Handlers Daily.

Variable findFeeders : FeederFilter -> list PopulatedFeeder.


End DailyClaims.
